(** * py4cl: the worker side of the Lisp/Python bridge (src/py4cl.py)

    A shallow embedding of [py4cl.py]: the value encoder [lispify], the
    framed stream functions [recv_string] / [send_value], the responses
    [return_value] / [return_error], the reentrant [message_dispatch_loop]
    and [callback_func].

    A [float] and an object of a class that [py4cl.py] does not know are
    recorded by what [py4cl.py] can observe of them. What belongs to the
    Python runtime is the interface [Python]: [repr], and the builtins
    [eval], [exec] and function application, whose result is a computation
    tree that may call back into Lisp. *)

From stdpp Require Import gmap strings.
From Stdlib Require Import ZArith Ascii String List DecimalString DecimalZ.
Import ListNotations.
Local Open Scope string_scope.
Local Open Scope list_scope.
Local Open Scope Z_scope.

(** ** Exceptions and results *)

(** An instance of a subclass of [Exception]: its class name and [str(e)]. *)
Record exn : Type := Exn { exn_class : string; exn_str : string }.

(** Outcome of a piece of pure Python code: a value, or a raised exception. *)
Inductive pyres (A : Type) : Type :=
| Ok (a : A)
| Raise (e : exn).
Arguments Ok {A} a.
Arguments Raise {A} e.

Definition pbind {A B : Type} (r : pyres A) (k : A -> pyres B) : pyres B :=
  match r with
  | Ok a => k a
  | Raise e => Raise e
  end.

(** Evaluates the elements of a comprehension from left to right; the
    first exception raised ends it. *)
Definition pmapM {A B : Type} (f : A -> pyres B) : list A -> pyres (list B) :=
  fix go (l : list A) : pyres (list B) :=
    match l with
    | [] => Ok []
    | x :: rest => pbind (f x) (fun y => pbind (go rest) (fun ys => Ok (y :: ys)))
    end.

Definition IndexError_tuple : exn := Exn "IndexError" "tuple index out of range".

(** ** Strings *)

(** [str(n)] for an [int]. *)
Definition str_int (z : Z) : string := NilZero.string_of_int (Z.to_int z).

(** [s.replace(old, new)] for a one-character [old]. *)
Fixpoint replace_char (old : ascii) (new : string) (s : string) : string :=
  match s with
  | EmptyString => EmptyString
  | String c rest =>
      if Ascii.eqb c old then new +:+ replace_char old new rest
      else String c (replace_char old new rest)
  end.

Definition backslash : ascii := Ascii.ascii_of_nat 92.
Definition dquote : ascii := Ascii.ascii_of_nat 34.
Definition bs : string := String backslash EmptyString.
Definition dq : string := String dquote EmptyString.

(** The [str] entry of [lispifiers]. *)
Definition lispify_str (x : string) : string :=
  dq +:+ replace_char dquote (bs +:+ dq) (replace_char backslash (bs +:+ bs) x) +:+ dq.

(** [sep.join(parts)]. *)
Definition join (sep : string) (parts : list string) : string := String.concat sep parts.

(** The first [n] characters of [s], and the rest. *)
Fixpoint str_take (n : nat) (s : string) : string :=
  match n, s with
  | S n', String c rest => String c (str_take n' rest)
  | _, _ => EmptyString
  end.

Fixpoint str_drop (n : nat) (s : string) : string :=
  match n, s with
  | S n', String _ rest => str_drop n' rest
  | _, _ => s
  end.

(** [needle in hay]. *)
Fixpoint contains (needle hay : string) : bool :=
  if String.prefix needle hay then true
  else match hay with
       | EmptyString => false
       | String _ rest => contains needle rest
       end.

(** ** Values *)

(** A [float], by its [str] and by the [int] it is equal to, when there is
    one. *)
Record pyfloat : Type := Float { float_str : string; float_int : option Z }.

(** An object whose class is not a key of [lispifiers] and is not an
    exception class (a NumPy scalar, a [fractions.Fraction], a function, a
    set): its class name, its [str], whether it is an instance of
    [numbers.Number], its [bool], and the [int] it is equal to and hashes
    like ([TypeError] when it cannot be hashed). *)
Record pyobject : Type := Object {
  obj_type_name : string;
  obj_str : string;
  obj_is_number : bool;
  obj_truthy : pyres bool;
  obj_int_key : pyres (option Z)
}.

#[warnings="-register-all"]
Inductive value : Type :=
| VNone
| VBool (b : bool)
| VInt (z : Z)
| VFloat (f : pyfloat)
| VComplex (re im : pyfloat)
| VStr (s : string)
| VSymbol (name : string)
| VList (elts : list value)
| VTuple (elts : list value)
| VDict (items : list (value * value))
| VNdarray (shape : list nat) (data : list value)
| VExc (e : exn)
| VObject (o : pyobject).

(** [VNdarray shape data] is a [numpy.ndarray]: [obj.shape] and the
    elements in row-major order, each as the object that iterating the
    array yields. [obj.ndim] is the length of the shape. *)

Section value_induction.
Variable P : value -> Prop.
Hypothesis HNone : P VNone.
Hypothesis HBool : forall b, P (VBool b).
Hypothesis HInt : forall z, P (VInt z).
Hypothesis HFloat : forall f, P (VFloat f).
Hypothesis HComplex : forall re im, P (VComplex re im).
Hypothesis HStr : forall s, P (VStr s).
Hypothesis HSymbol : forall n, P (VSymbol n).
Hypothesis HList : forall l, Forall P l -> P (VList l).
Hypothesis HTuple : forall l, Forall P l -> P (VTuple l).
Hypothesis HDict :
  forall kvs, Forall (fun kv => P (fst kv) /\ P (snd kv)) kvs -> P (VDict kvs).
Hypothesis HNdarray : forall shape data, Forall P data -> P (VNdarray shape data).
Hypothesis HExc : forall e, P (VExc e).
Hypothesis HObject : forall o, P (VObject o).

Fixpoint value_nested_ind (v : value) : P v :=
  let all :=
    fix all (l : list value) : Forall P l :=
      match l with
      | [] => @Forall_nil _ P
      | x :: rest => @Forall_cons _ P x rest (value_nested_ind x) (all rest)
      end in
  match v with
  | VNone => HNone
  | VBool b => HBool b
  | VInt z => HInt z
  | VFloat f => HFloat f
  | VComplex re im => HComplex re im
  | VStr s => HStr s
  | VSymbol n => HSymbol n
  | VList l => HList l (all l)
  | VTuple l => HTuple l (all l)
  | VDict kvs =>
      HDict kvs
        ((fix allkv (l : list (value * value))
            : Forall (fun kv => P (fst kv) /\ P (snd kv)) l :=
            match l with
            | [] => @Forall_nil _ _
            | (k, x) :: rest =>
                @Forall_cons _ _ (k, x) rest
                  (conj (value_nested_ind k) (value_nested_ind x)) (allkv rest)
            end) kvs)
  | VNdarray shape data => HNdarray shape data (all data)
  | VExc e => HExc e
  | VObject o => HObject o
  end.
End value_induction.

(** ** The encoder *)

(** [obj[i,...]] on the row-major elements: block [i] of [stride] elements. *)
Definition block {A : Type} (stride i : nat) (leaves : list A) : list A :=
  firstn stride (skipn (i * stride) leaves).

Definition prod_shape (shape : list nat) : nat := fold_right Nat.mul 1%nat shape.

(** [nested] of [lispify_ndarray], on the shape and the encodings of the
    elements ([lispify(i)] for each element [i], not yet forced). With one
    axis the elements are joined; with more, [nested] recurses on
    [obj[i,...]] for [i] in [range(obj.shape[0])]; with none, [obj.shape[0]]
    raises [IndexError]. *)
Fixpoint nested (shape : list nat) (leaves : list (pyres string)) : pyres string :=
  match shape with
  | [] => Raise IndexError_tuple
  | n :: rest =>
      match rest with
      | [] =>
          pbind (pmapM (fun r => r) leaves)
            (fun parts => Ok ("(" +:+ join " " parts +:+ ")"))
      | _ :: _ =>
          pbind (pmapM (fun i => nested rest (block (prod_shape rest) i leaves)) (seq 0 n))
            (fun parts => Ok ("(" +:+ join " " parts +:+ ")"))
      end
  end.

Definition hash_table_open : string := "#.(let ((table (make-hash-table :test 'equal))) ".

Definition setf_form (k v : string) : string :=
  "(setf (gethash " +:+ k +:+ " table) " +:+ v +:+ ")".

(** [lispify] = [lispify_aux]: the [lispifiers] entry of [type(obj)], and on
    [KeyError] the [numbers.Number] test, then ["NIL"]. *)
Fixpoint lispify (obj : value) : pyres string :=
  match obj with
  | VBool x => Ok (if x then "T" else "NIL")
  | VNone => Ok "NIL"
  | VInt x => Ok (str_int x)
  | VFloat x => Ok (float_str x)
  | VComplex re im => Ok ("#C(" +:+ float_str re +:+ " " +:+ float_str im +:+ ")")
  | VList x =>
      pbind (pmapM lispify x) (fun parts => Ok ("#(" +:+ join " " parts +:+ ")"))
  | VTuple x =>
      pbind (pmapM lispify x) (fun parts => Ok ("(" +:+ join " " parts +:+ ")"))
  | VDict x =>
      pbind (pmapM (fun kv => let '(key, val) := kv in
                              pbind (lispify key) (fun k =>
                              pbind (lispify val) (fun v => Ok (setf_form k v)))) x)
        (fun parts => Ok (hash_table_open +:+ join " " parts +:+ " table)"))
  | VStr x => Ok (lispify_str x)
  | VSymbol name => Ok name
  | VNdarray shape data =>
      pbind (nested shape (map lispify data))
        (fun body => Ok ("#" +:+ str_int (Z.of_nat (List.length shape)) +:+ "A" +:+ body))
  | VExc _ => Ok "NIL"
  | VObject o => if obj_is_number o then Ok (obj_str o) else Ok "NIL"
  end.

(** The values on which [lispify] is shown to return a non-empty string:
    no [Symbol] has an empty name and no array has rank 0, at any depth. A
    [float] has a non-empty [str], and so has an object that is a
    [numbers.Number]. *)
Fixpoint encodable (obj : value) : bool :=
  match obj with
  | VFloat f => negb (String.eqb (float_str f) "")
  | VSymbol name => negb (String.eqb name "")
  | VList l | VTuple l => forallb encodable l
  | VDict items =>
      forallb (fun kv => let '(key, val) := kv in encodable key && encodable val) items
  | VNdarray shape data =>
      match shape with
      | [] => false
      | _ :: _ => forallb encodable data
      end
  | VObject o => negb (obj_is_number o) || negb (String.eqb (obj_str o) "")
  | _ => true
  end.

(** [form] is the [(setf (gethash K table) V)] of the item [kv]. *)
Definition encodes_item (kv : value * value) (form : string) : Prop :=
  exists k v, lispify (fst kv) = Ok k /\ lispify (snd kv) = Ok v /\
              form = "(setf (gethash " +:+ k +:+ " table) " +:+ v +:+ ")".

(** How a reader takes a string literal off the front of a text: after the
    opening double quote, a backslash stands for the character after it and
    the first double quote without one ends the literal. The result is the
    string read and the text after the literal. *)
Fixpoint read_body (s : string) : option (string * string) :=
  match s with
  | EmptyString => None
  | String c rest =>
      if Ascii.eqb c dquote then Some (EmptyString, rest)
      else if Ascii.eqb c backslash then
        match rest with
        | EmptyString => None
        | String d rest' =>
            match read_body rest' with
            | Some (x, after) => Some (String d x, after)
            | None => None
            end
        end
      else
        match read_body rest with
        | Some (x, after) => Some (String c x, after)
        | None => None
        end
  end.

Definition read_string (s : string) : option (string * string) :=
  match s with
  | EmptyString => None
  | String c rest => if Ascii.eqb c dquote then read_body rest else None
  end.

(** ** The Python runtime *)

(** The course of a piece of evaluated code started in some world: it
    returns, raises an [Exception], raises [SystemExit], or calls
    [_py4cl_callback] and goes on with what that call returns or raises.
    Evaluated code reaches the two streams through [_py4cl_callback] only. *)
Inductive comp (world A : Type) : Type :=
| Return (a : A) (w : world)
| Throw (e : exn) (w : world)
| SysExit (code : Z) (w : world)
| Callback (ident : value) (args : list value) (kwargs : list (string * value))
    (w : world) (k : pyres value -> world -> comp world A).
Arguments Return {world A} a w.
Arguments Throw {world A} e w.
Arguments SysExit {world A} code w.
Arguments Callback {world A} ident args kwargs w k.

(** [world] is what the evaluated code can see and change: [eval_globals],
    [eval_locals] and the objects they reach. [py_repr] is [repr(obj)],
    which the messages of the builtin exceptions quote; [py_obj_iter] is
    [list(iter(obj))] for an object of an unknown class; then
    [eval(src, eval_globals, eval_locals)], [exec(src, eval_globals,
    eval_locals)], [function( *args, **kwargs)] and
    [eval_locals[name] = value]. *)
Class Python : Type := {
  world : Type;
  py_repr : value -> string;
  py_obj_iter : pyobject -> pyres (list value);
  py_eval : value -> world -> comp world value;
  py_exec : value -> world -> comp world unit;
  py_call : value -> list value -> list (string * value) -> world -> comp world value;
  py_set_local : value -> value -> world -> pyres world
}.

Section Py4cl.

Context {py : Python}.

(** ** Builtins that [py4cl.py] applies to the values it receives *)

Definition TypeError (msg : string) : exn := Exn "TypeError" msg.
Definition ValueError (msg : string) : exn := Exn "ValueError" msg.
Definition StopIteration : exn := Exn "StopIteration" "".
(** [str(KeyError(key))] is [repr(key)]. *)
Definition KeyError (key : value) : exn := Exn "KeyError" (py_repr key).

(** [type(obj).__name__]. *)
Definition type_name (obj : value) : string :=
  match obj with
  | VNone => "NoneType"
  | VBool _ => "bool"
  | VInt _ => "int"
  | VFloat _ => "float"
  | VComplex _ _ => "complex"
  | VStr _ => "str"
  | VSymbol _ => "Symbol"
  | VList _ => "list"
  | VTuple _ => "tuple"
  | VDict _ => "dict"
  | VNdarray _ _ => "numpy.ndarray"
  | VExc e => exn_class e
  | VObject o => obj_type_name o
  end.

(** [str(obj)], as [return_error] applies it. *)
Definition py_str (obj : value) : string :=
  match obj with
  | VStr s => s
  | VExc e => exn_str e
  | VNone => "None"
  | VBool b => if b then "True" else "False"
  | VInt z => str_int z
  | VFloat f => float_str f
  | VSymbol name => name
  | VObject o => obj_str o
  | VComplex _ _ | VList _ | VTuple _ | VDict _ | VNdarray _ _ => py_repr obj
  end.

Definition is_zero (f : pyfloat) : bool :=
  match float_int f with
  | Some 0 => true
  | _ => false
  end.

(** [bool(obj)], the test of [if allargs:]. *)
Fixpoint truthy (obj : value) : pyres bool :=
  match obj with
  | VNone => Ok false
  | VBool b => Ok b
  | VInt z => Ok (negb (z =? 0))
  | VFloat f => Ok (negb (is_zero f))
  | VComplex re im => Ok (negb (is_zero re && is_zero im))
  | VStr s => Ok (negb (String.eqb s ""))
  | VSymbol _ => Ok true
  | VList l | VTuple l => Ok (match l with [] => false | _ :: _ => true end)
  | VDict l => Ok (match l with [] => false | _ :: _ => true end)
  | VNdarray _ data =>
      match data with
      | [] => Ok false
      | [x] => truthy x
      | _ :: _ :: _ =>
          Raise (ValueError
            "The truth value of an array with more than one element is ambiguous. Use a.any() or a.all()")
      end
  | VExc _ => Ok true
  | VObject o => obj_truthy o
  end.

Definition chars (s : string) : list value :=
  map (fun c => VStr (String c EmptyString)) (list_ascii_of_string s).

(** The elements that iterating over [obj] yields. *)
Definition py_iter (obj : value) : pyres (list value) :=
  match obj with
  | VList l | VTuple l => Ok l
  | VStr s => Ok (chars s)
  | VDict l => Ok (map fst l)
  | VNdarray shape data =>
      match shape with
      | [] => Raise (TypeError "iteration over a 0-d array")
      | [_] => Ok data
      | n :: rest =>
          Ok (map (fun i => VNdarray rest (block (prod_shape rest) i data)) (seq 0 n))
      end
  | VObject o => py_obj_iter o
  | _ => Raise (TypeError ("'" +:+ type_name obj +:+ "' object is not iterable"))
  end.

(** [a, b = obj]. *)
Definition unpack2 (obj : value) : pyres (value * value) :=
  match obj with
  | VNone | VBool _ | VInt _ | VFloat _ | VComplex _ _ | VSymbol _ | VExc _ =>
      Raise (TypeError ("cannot unpack non-iterable " +:+ type_name obj +:+ " object"))
  | _ =>
      pbind (py_iter obj) (fun items =>
        match items with
        | [a; b] => Ok (a, b)
        | _ :: _ :: _ :: _ => Raise (ValueError "too many values to unpack (expected 2)")
        | _ =>
            Raise (ValueError ("not enough values to unpack (expected 2, got "
                               +:+ str_int (Z.of_nat (List.length items)) +:+ ")"))
        end)
  end.

(** [d[key] = val] on a [dict] with [str] keys, in insertion order. *)
Fixpoint dict_set (key : string) (val : value) (d : list (string * value))
  : list (string * value) :=
  match d with
  | [] => [(key, val)]
  | (k, v) :: rest =>
      if String.eqb k key then (k, val) :: rest else (k, v) :: dict_set key val rest
  end.

(** [s[1:]]. *)
Definition drop1 (s : string) : string :=
  match s with
  | EmptyString => EmptyString
  | String _ rest => rest
  end.

(** The loop [for arg in it] of the [f]/[a] branch, on what [it] still has
    to yield. *)
Fixpoint split_loop (it args : list value) (kwargs : list (string * value))
  : pyres (list value * list (string * value)) :=
  match it with
  | [] => Ok (args, kwargs)
  | arg :: rest =>
      match arg with
      | VSymbol name =>
          match rest with
          | [] => Raise StopIteration
          | val :: rest' => split_loop rest' args (dict_set (drop1 name) val kwargs)
          end
      | _ => split_loop rest (args ++ [arg]) kwargs
      end
  end.

(** "Split positional arguments and keywords". *)
Definition split_args (allargs : value) : pyres (list value * list (string * value)) :=
  pbind (truthy allargs) (fun nonempty =>
    if nonempty then pbind (py_iter allargs) (fun it => split_loop it [] [])
    else Ok ([], [])).

(** The shape of a flat argument sequence: positional values and
    [:keyword value] pairs. *)
Inductive argument : Type :=
| Positional (val : value)
| Keyword (name : string) (val : value).

Definition flat_argument (a : argument) : list value :=
  match a with
  | Positional val => [val]
  | Keyword name val => [VSymbol (":" +:+ name); val]
  end.

Definition flat_arguments (l : list argument) : list value := flat_map flat_argument l.

Definition positionals (l : list argument) : list value :=
  flat_map (fun a => match a with Positional val => [val] | Keyword _ _ => [] end) l.

(** The bindings of the keywords of [l], made in their order on [kwargs]. *)
Definition bindings_on (kwargs : list (string * value)) (l : list argument)
  : list (string * value) :=
  fold_left (fun d a => match a with
                        | Positional _ => d
                        | Keyword name val => dict_set name val d
                        end) l kwargs.

(** [type(obj) in lispifiers]. *)
Definition in_lispifiers (obj : value) : bool :=
  match obj with
  | VExc _ | VObject _ => false
  | _ => true
  end.

(** [isinstance(obj, numbers.Number)]. *)
Definition is_number (obj : value) : bool :=
  match obj with
  | VBool _ | VInt _ | VFloat _ | VComplex _ _ => true
  | VObject o => obj_is_number o
  | _ => false
  end.

(** [isinstance(obj, Exception)]. *)
Definition is_exception (obj : value) : bool :=
  match obj with
  | VExc _ => true
  | _ => false
  end.

(** [isinstance(obj, Symbol)]. *)
Definition is_symbol (obj : value) : bool :=
  match obj with
  | VSymbol _ => true
  | _ => false
  end.

Definition positional_ok (a : argument) : Prop :=
  match a with
  | Positional val => is_symbol val = false
  | Keyword _ _ => True
  end.

(** Whether [hash(obj)] succeeds. *)
Fixpoint hashable (obj : value) : pyres unit :=
  match obj with
  | VList _ | VDict _ | VNdarray _ _ =>
      Raise (TypeError ("unhashable type: '" +:+ type_name obj +:+ "'"))
  | VTuple l =>
      (fix all (l : list value) : pyres unit :=
         match l with
         | [] => Ok tt
         | x :: rest => pbind (hashable x) (fun _ => all rest)
         end) l
  | VObject o => pbind (obj_int_key o) (fun _ => Ok tt)
  | _ => Ok tt
  end.

(** The key of [async_results] (they are all [int]) that [obj] is equal
    to as a [dict] key: [True == 1] and [1.0 == 1]. *)
Definition int_key (obj : value) : pyres (option Z) :=
  match obj with
  | VInt z => Ok (Some z)
  | VBool b => Ok (Some (Z.b2z b))
  | VFloat f => Ok (float_int f)
  | VComplex re im => Ok (if is_zero im then float_int re else None)
  | VObject o => obj_int_key o
  | _ => pbind (hashable obj) (fun _ => Ok None)
  end.

(** ** [int(line)] *)

Definition is_space (c : ascii) : bool :=
  let n := nat_of_ascii c in
  ((9 <=? n) && (n <=? 13) || (28 <=? n) && (n <=? 32))%nat.

Definition not_space (c : ascii) : Prop := is_space c = false.

Definition digit_of (c : ascii) : option Z :=
  let n := nat_of_ascii c in
  if ((48 <=? n) && (n <=? 57))%nat then Some (Z.of_nat (n - 48)) else None.

(** Decimal digits, single underscores only between two digits. *)
Fixpoint parse_digits (acc : Z) (after_digit : bool) (l : list ascii) : option Z :=
  match l with
  | [] => if after_digit then Some acc else None
  | c :: rest =>
      match digit_of c with
      | Some d => parse_digits (10 * acc + d) true rest
      | None =>
          if Ascii.eqb c "_" && after_digit then parse_digits acc false rest else None
      end
  end.

Fixpoint lstrip (l : list ascii) : list ascii :=
  match l with
  | c :: rest => if is_space c then lstrip rest else l
  | [] => []
  end.

Definition strip (l : list ascii) : list ascii := rev (lstrip (rev (lstrip l))).

Definition parse_int (s : string) : option Z :=
  match strip (list_ascii_of_string s) with
  | c :: rest =>
      if Ascii.eqb c "-" then option_map Z.opp (parse_digits 0 false rest)
      else if Ascii.eqb c "+" then parse_digits 0 false rest
      else parse_digits 0 false (c :: rest)
  | [] => None
  end.

(** [int(s)] for a [str]. *)
Definition py_int (s : string) : pyres Z :=
  match parse_int s with
  | Some z => Ok z
  | None =>
      Raise (ValueError ("invalid literal for int() with base 10: " +:+ py_repr (VStr s)))
  end.

(** ** The state of the worker *)

Inductive stream : Type := write_stream | redirect_stream.

Record state : Type := State {
  stdin : string;                  (* the characters [sys.stdin] has yet to deliver *)
  written : string;                (* what [write_stream] has received *)
  redirected : string;             (* what [redirect_stream] has received from [print] *)
  sys_stdout : stream;
  the_world : world;
  async_results : gmap Z value;
  async_handle : Z                 (* the next value of [itertools.count(0)] *)
}.

Definition set_stdin (s : string) (st : state) : state :=
  State s (written st) (redirected st) (sys_stdout st) (the_world st)
        (async_results st) (async_handle st).
Definition set_written (s : string) (st : state) : state :=
  State (stdin st) s (redirected st) (sys_stdout st) (the_world st)
        (async_results st) (async_handle st).
Definition set_redirected (s : string) (st : state) : state :=
  State (stdin st) (written st) s (sys_stdout st) (the_world st)
        (async_results st) (async_handle st).
Definition set_sys_stdout (o : stream) (st : state) : state :=
  State (stdin st) (written st) (redirected st) o (the_world st)
        (async_results st) (async_handle st).
Definition set_world (w : world) (st : state) : state :=
  State (stdin st) (written st) (redirected st) (sys_stdout st) w
        (async_results st) (async_handle st).
Definition set_async_results (m : gmap Z value) (st : state) : state :=
  State (stdin st) (written st) (redirected st) (sys_stdout st) (the_world st)
        m (async_handle st).
Definition set_async_handle (h : Z) (st : state) : state :=
  State (stdin st) (written st) (redirected st) (sys_stdout st) (the_world st)
        (async_results st) h.

(** How a piece of the worker's own code ends: normally, with an
    [Exception] on its way up, with [SystemExit] on its way up (nothing in
    [py4cl.py] catches it: the process exits), or not within the fuel. *)
Inductive outcome (A : Type) : Type :=
| Done (a : A) (st : state)
| Raised (e : exn) (st : state)
| Exited (code : Z) (st : state)
| OutOfFuel.
Arguments Done {A} a st.
Arguments Raised {A} e st.
Arguments Exited {A} code st.
Arguments OutOfFuel {A}.

Definition M (A : Type) : Type := state -> outcome A.

Definition ret {A : Type} (a : A) : M A := fun st => Done a st.

Definition bind {A B : Type} (m : M A) (k : A -> M B) : M B :=
  fun st =>
    match m st with
    | Done a st' => k a st'
    | Raised e st' => Raised e st'
    | Exited code st' => Exited code st'
    | OutOfFuel => OutOfFuel
    end.

Notation "x <- m ;; k" := (bind m (fun x => k))
  (at level 100, m at next level, right associativity).
Notation "m ;; k" := (bind m (fun _ => k))
  (at level 100, right associativity).

Definition raise {A : Type} (e : exn) : M A := fun st => Raised e st.

Definition lift {A : Type} (r : pyres A) : M A :=
  match r with
  | Ok a => ret a
  | Raise e => raise e
  end.

(** [try: body finally: fin]. *)
Definition try_finally {A : Type} (body : M A) (fin : M unit) : M A :=
  fun st =>
    match body st with
    | Done a st' => (fin ;; ret a) st'
    | Raised e st' => (fin ;; raise e) st'
    | Exited code st' => (fin ;; (fun st'' => Exited code st'')) st'
    | OutOfFuel => OutOfFuel
    end.

(** [sys.exit(code)]. *)
Definition sys_exit {A : Type} (code : Z) : M A := fun st => Exited code st.

(** [m2] does what [m1] does, wherever [m1] does not run out of fuel. *)
Definition refines {A : Type} (m1 m2 : M A) : Prop :=
  forall st, m1 st = OutOfFuel \/ m2 st = m1 st.

(** ** The streams *)

(** [sys.stdin.read(n)]: [n] characters, fewer at the end of the stream;
    everything left when [n] is negative. *)
Definition stdin_read (n : Z) : M string :=
  fun st =>
    if n <? 0 then Done (stdin st) (set_stdin "" st)
    else Done (str_take (Z.to_nat n) (stdin st))
              (set_stdin (str_drop (Z.to_nat n) (stdin st)) st).

(** The first line of [s], its newline included, and what follows it. *)
Fixpoint split_line (s : string) : string * string :=
  match s with
  | EmptyString => (EmptyString, EmptyString)
  | String c rest =>
      if Ascii.eqb c (Ascii.ascii_of_nat 10) then (String c EmptyString, rest)
      else let '(line, after) := split_line rest in (String c line, after)
  end.

(** [sys.stdin.readline()]. *)
Definition stdin_readline : M string :=
  fun st => let '(line, after) := split_line (stdin st) in Done line (set_stdin after st).

(** [write_stream.write(s)]. *)
Definition write (s : string) : M unit :=
  fun st => Done tt (set_written (written st +:+ s) st).

Definition newline : string := String (Ascii.ascii_of_nat 10) EmptyString.

(** [print(s)]: [s] and a newline, to whatever [sys.stdout] is. *)
Definition print (s : string) : M unit :=
  fun st =>
    match sys_stdout st with
    | write_stream => Done tt (set_written (written st +:+ s +:+ newline) st)
    | redirect_stream => Done tt (set_redirected (redirected st +:+ s +:+ newline) st)
    end.

(** [sys.stdout = o]. *)
Definition assign_stdout (o : stream) : M unit :=
  fun st => Done tt (set_sys_stdout o st).

Definition recv_string : M string :=
  line <- stdin_readline ;;
  length <- lift (py_int line) ;;
  stdin_read length.

(** [len(s)] for a [str]. *)
Definition len (s : string) : Z := Z.of_nat (String.length s).

Definition send_value (val : value) : M unit :=
  value_str <- lift (lispify val) ;;
  print (str_int (len value_str)) ;;
  write value_str.

Definition return_error (err : value) : M unit :=
  try_finally
    (assign_stdout write_stream ;;
     write "e" ;;
     send_value (VStr (py_str err)))
    (assign_stdout redirect_stream).

Definition return_value (val : value) : M unit :=
  match val with
  | VExc _ => return_error val
  | _ =>
      try_finally
        (assign_stdout write_stream ;;
         write "r" ;;
         send_value val)
        (assign_stdout redirect_stream)
  end.

(** [s] framed: its length, a newline, [s]. *)
Definition frame (s : string) : string := str_int (len s) +:+ newline +:+ s.

(** The state once a response has been written: the marker, the framed
    payload, and [sys.stdout] back on [redirect_stream]. *)
Definition respond (marker payload : string) (st : state) : state :=
  set_sys_stdout redirect_stream (set_written (written st +:+ marker +:+ frame payload) st).

(** The command bytes that [message_dispatch_loop] tests for, and those
    whose branch begins by receiving a frame. *)
Definition known_command (c : ascii) : bool :=
  existsb (Ascii.eqb c) ["e"; "x"; "q"; "r"; "f"; "a"; "R"; "s"]%char.


(** Every handle under which a result is stored has been issued by the
    counter. *)
Definition handles_issued (st : state) : Prop :=
  forall (h : Z) (val : value), async_results st !! h = Some val -> h < async_handle st.

(** [st'] comes after [st] in a run of the worker: output was only added
    at the end, input was only taken from the front, the counter did not go
    back, nothing went to [redirect_stream], and [sys.stdout] is on
    [redirect_stream] again if it was. *)
Definition follows (st st' : state) : Prop :=
  (exists out, written st' = written st +:+ out)
  /\ (exists consumed, stdin st = consumed +:+ stdin st')
  /\ async_handle st <= async_handle st'
  /\ redirected st' = redirected st
  /\ (sys_stdout st = redirect_stream -> sys_stdout st' = redirect_stream)
  /\ (handles_issued st -> handles_issued st').

(** The state in which [o] ends comes after [st], if [o] ends. *)
Definition ends_after {A : Type} (st : state) (o : outcome A) : Prop :=
  match o with
  | Done _ st' | Raised _ st' | Exited _ st' => follows st st'
  | OutOfFuel => True
  end.

Definition stable {A : Type} (m : M A) : Prop := forall st, ends_after st (m st).

(** The assignments [eval_locals[name] = value] for the pairs of
    [setlist], in their order. *)
Fixpoint set_locals (pairs : list (value * value)) (w : world) : pyres world :=
  match pairs with
  | [] => Ok w
  | (name, val) :: rest => pbind (py_set_local name val w) (set_locals rest)
  end.

(** The state in which a piece of code ends, when it ends. *)
Definition final_state {A : Type} (o : outcome A) : option state :=
  match o with
  | Done _ st | Raised _ st | Exited _ st => Some st
  | OutOfFuel => None
  end.

(** The pair [(name, value)] of a [setlist], as a tuple. *)
Definition pair_value (nv : value * value) : value := VTuple [fst nv; snd nv].

(** ** The dispatcher *)

Section Reentrant.

(** The [message_dispatch_loop] that [callback_func] enters. *)
Variable loop : M value.

(** The keyword arguments as [":keyword", value] pairs. *)
Definition keyword_pairs (kwargs : list (string * value)) : list value :=
  flat_map (fun kv => [VSymbol (":" +:+ fst kv); snd kv]) kwargs.

Definition callback_func (ident : value) (args : list value)
    (kwargs : list (string * value)) : M value :=
  let allargs := args ++ keyword_pairs kwargs in
  try_finally
    (assign_stdout write_stream ;;
     write "c" ;;
     send_value (VTuple [ident; VTuple allargs]))
    (assign_stdout redirect_stream) ;;
  loop.

(** Runs evaluated code; each call of [_py4cl_callback] in it is a call of
    [callback_func], whose outcome the code goes on with. *)
Fixpoint run {A : Type} (c : comp world A) : M A :=
  fun st =>
    match c with
    | Return a w => Done a (set_world w st)
    | Throw e w => Raised e (set_world w st)
    | SysExit code w => Exited code (set_world w st)
    | Callback ident args kwargs w k =>
        match callback_func ident args kwargs (set_world w st) with
        | Done v st' => run (k (Ok v) (the_world st')) st'
        | Raised e st' => run (k (Raise e) (the_world st')) st'
        | Exited code st' => Exited code st'
        | OutOfFuel => OutOfFuel
        end
    end.

(** Evaluated code started in the current world. *)
Definition run_py {A : Type} (code : world -> comp world A) : M A :=
  fun st => run (code (the_world st)) st.

Definition recv_value : M value :=
  src <- recv_string ;;
  run_py (py_eval (VStr src)).

(** [next(async_handle)]. *)
Definition next_async_handle : M Z :=
  fun st => Done (async_handle st) (set_async_handle (async_handle st + 1) st).

(** [async_results[handle] = val]. *)
Definition store_async (handle : Z) (val : value) : M unit :=
  fun st => Done tt (set_async_results (<[handle := val]> (async_results st)) st).

(** [async_results.pop(handle)]. *)
Definition pop_async (handle : value) : M value :=
  key <- lift (int_key handle) ;;
  fun st =>
    match key with
    | Some h =>
        match async_results st !! h with
        | Some val => Done val (set_async_results (delete h (async_results st)) st)
        | None => Raised (KeyError handle) st
        end
    | None => Raised (KeyError handle) st
    end.

(** The [try] / [except Exception as e] around the deferred call. *)
Definition call_and_store (handle : Z) (function : value) (args : list value)
    (kwargs : list (string * value)) : M unit :=
  fun st =>
    match run_py (py_call function args kwargs) st with
    | Done val st' => store_async handle val st'
    | Raised e st' => store_async handle (VExc e) st'
    | Exited code st' => Exited code st'
    | OutOfFuel => OutOfFuel
    end.

(** [for name, value in setlist: eval_locals[name] = value]. *)
Fixpoint set_variables (setlist : list value) : M unit :=
  match setlist with
  | [] => ret tt
  | item :: rest =>
      nv <- lift (unpack2 item) ;;
      (fun st =>
         match py_set_local (fst nv) (snd nv) (the_world st) with
         | Ok w => Done tt (set_world w st)
         | Raise e => Raised e st
         end) ;;
      set_variables rest
  end.

(** The body of the [try] in [message_dispatch_loop]: [Some v] when it
    executes [return v], [None] when it falls through to the next turn of
    [while True]. *)
Definition dispatch : M (option value) :=
  cmd_type <- stdin_read 1 ;;
  if String.eqb cmd_type "e" then
    src <- recv_string ;;
    result <- run_py (py_eval (VStr src)) ;;
    return_value result ;;
    ret None
  else if String.eqb cmd_type "x" then
    src <- recv_string ;;
    run_py (py_exec (VStr src)) ;;
    return_value VNone ;;
    ret None
  else if String.eqb cmd_type "q" then
    sys_exit 0
  else if String.eqb cmd_type "r" then
    v <- recv_value ;;
    ret (Some v)
  else if String.eqb cmd_type "f" || String.eqb cmd_type "a" then
    payload <- recv_value ;;
    fn_allargs <- lift (unpack2 payload) ;;
    let fn_name := fst fn_allargs in
    let allargs := snd fn_allargs in
    split <- lift (split_args allargs) ;;
    let args := fst split in
    let kwargs := snd split in
    function <- run_py (py_eval fn_name) ;;
    if String.eqb cmd_type "f" then
      val <- run_py (py_call function args kwargs) ;;
      return_value val ;;
      ret None
    else
      handle <- next_async_handle ;;
      return_value (VInt handle) ;;
      call_and_store handle function args kwargs ;;
      ret None
  else if String.eqb cmd_type "R" then
    handle <- recv_value ;;
    val <- pop_async handle ;;
    return_value val ;;
    ret None
  else if String.eqb cmd_type "s" then
    setlist <- recv_value ;;
    items <- lift (py_iter setlist) ;;
    set_variables items ;;
    return_value (VBool true) ;;
    ret None
  else
    return_error (VStr ("Unknown message type '" +:+ cmd_type +:+ "'")) ;;
    ret None.

(** One turn of [while True]: the [try] body, and on an [Exception]
    [return_error(e)]. [Some v] leaves the loop with [v]. *)
Definition turn : M (option value) :=
  fun st =>
    match dispatch st with
    | Raised e st' => (return_error (VExc e) ;; ret None) st'
    | other => other
    end.

End Reentrant.

(** [message_dispatch_loop], for at most [fuel] turns and nested calls. *)
Fixpoint message_dispatch_loop (fuel : nat) : M value :=
  match fuel with
  | O => fun _ => OutOfFuel
  | S n =>
      returned <- turn (message_dispatch_loop n) ;;
      match returned with
      | Some v => ret v
      | None => message_dispatch_loop n
      end
  end.

End Py4cl.

Arguments Done {py A} a st.
Arguments Raised {py A} e st.
Arguments Exited {py A} code st.
Arguments OutOfFuel {py A}.

Notation "x <- m ;; k" := (bind m (fun x => k))
  (at level 100, m at next level, right associativity).
Notation "m ;; k" := (bind m (fun _ => k))
  (at level 100, right associativity).

(** ** A session

    An instance of [Python] for a worker whose namespace binds
    [ask = lambda *args, **kwargs: _py4cl_callback(7, *args, **kwargs)] and
    [half = fractions.Fraction(1, 2)], and which is sent the sources below
    only. Its world is the list of the assignments made by [s] commands,
    the latest first. *)
Module Session.

Definition squote : string := "'".

(** [repr] of a [str] without single quotes, and of an [int]. *)
Definition repr (obj : value) : string :=
  match obj with
  | VStr s =>
      squote +:+ replace_char (Ascii.ascii_of_nat 10) (bs +:+ "n")
                   (replace_char backslash (bs +:+ bs) s) +:+ squote
  | VInt z => str_int z
  | _ => "<object>"
  end.

Definition ask : pyobject := Object "function" "<function <lambda>>" false (Ok true) (Ok None).
Definition half : pyobject := Object "Fraction" "1/2" true (Ok true) (Ok None).

Definition bindings : Type := list (value * value).

Definition eval (src : value) (w : bindings) : comp bindings value :=
  match src with
  | VStr s =>
      if String.eqb s "0" then Return (VInt 0) w
      else if String.eqb s "1" then Return (VInt 1) w
      else if String.eqb s "2" then Return (VInt 2) w
      else if String.eqb s "1/0" then Throw (Exn "ZeroDivisionError" "division by zero") w
      else if String.eqb s "ValueError('boom')" then Return (VExc (Exn "ValueError" "boom")) w
      else if String.eqb s "half" then Return (VObject half) w
      else if String.eqb s "ask" then Return (VObject ask) w
      else if String.eqb s "len" then
        Return (VObject (Object "builtin_function_or_method" "<built-in function len>"
                           false (Ok true) (Ok None))) w
      else if String.eqb s "('ask', ())" then Return (VTuple [VStr "ask"; VTuple []]) w
      else if String.eqb s "('ask', (1, _py4cl_Symbol(':k'), 2))" then
        Return (VTuple [VStr "ask"; VTuple [VInt 1; VSymbol ":k"; VInt 2]]) w
      else if String.eqb s "('len', ((1, 2),))" then
        Return (VTuple [VStr "len"; VTuple [VTuple [VInt 1; VInt 2]]]) w
      else if String.eqb s "('len', (1,))" then
        Return (VTuple [VStr "len"; VTuple [VInt 1]]) w
      else if String.eqb s "(('x', 1),)" then
        Return (VTuple [VTuple [VStr "x"; VInt 1]]) w
      else Throw (Exn "SyntaxError" "invalid syntax") w
  | _ => Throw (Exn "TypeError" "eval() arg 1 must be a string, bytes or code object") w
  end.

Definition exec (src : value) (w : bindings) : comp bindings unit :=
  match src with
  | VStr s =>
      if String.eqb s "pass" then Return tt w
      else Throw (Exn "SyntaxError" "invalid syntax") w
  | _ => Throw (Exn "TypeError" "exec() arg 1 must be a string, bytes or code object") w
  end.

Definition call (function : value) (args : list value) (kwargs : list (string * value))
    (w : bindings) : comp bindings value :=
  match function with
  | VObject o =>
      if String.eqb (obj_str o) "<function <lambda>>" then
        Callback (VInt 7) args kwargs w
          (fun r w' => match r with Ok v => Return v w' | Raise e => Throw e w' end)
      else if String.eqb (obj_str o) "<built-in function len>" then
        match args, kwargs with
        | [VTuple l], [] | [VList l], [] => Return (VInt (Z.of_nat (List.length l))) w
        | [x], [] =>
            Throw (Exn "TypeError" ("object of type '" +:+ type_name x +:+ "' has no len()")) w
        | _, _ => Throw (Exn "TypeError" "len() takes exactly one argument") w
        end
      else Throw (Exn "TypeError" ("'" +:+ obj_type_name o +:+ "' object is not callable")) w
  | _ => Throw (Exn "TypeError" ("'" +:+ type_name function +:+ "' object is not callable")) w
  end.

Definition set_local (name val : value) (w : bindings) : pyres bindings :=
  pbind (hashable name) (fun _ => Ok ((name, val) :: w)).

Definition python : Python := {|
  world := bindings;
  py_repr := repr;
  py_obj_iter := fun o => Raise (Exn "TypeError" ("'" +:+ obj_type_name o +:+ "' object is not iterable"));
  py_eval := eval;
  py_exec := exec;
  py_call := call;
  py_set_local := set_local
|}.

(** The worker when it enters the main loop, with [input] on [sys.stdin]. *)
Definition start (input : string) : state (py := python) :=
  @State python input "" "" redirect_stream [] ∅ 0.

End Session.

(** ** A second session

    The session above, sent three more sources: a NumPy array of rank 0, a
    call whose argument sequence ends with a keyword, and a list for [s]
    whose second element is not a pair. *)
Module Session2.

Definition eval (src : value) (w : Session.bindings) : comp Session.bindings value :=
  match src with
  | VStr s =>
      if String.eqb s "_py4cl_np.array(5)" then
        Return (VNdarray [] [VObject (Object "int64" "5" true (Ok true) (Ok (Some 5)))]) w
      else if String.eqb s "('ask', (_py4cl_Symbol(':k'),))" then
        Return (VTuple [VStr "ask"; VTuple [VSymbol ":k"]]) w
      else if String.eqb s "(('x', 1), 2)" then
        Return (VTuple [VTuple [VStr "x"; VInt 1]; VInt 2]) w
      else Session.eval src w
  | _ => Session.eval src w
  end.

Definition python : Python := {|
  world := Session.bindings;
  py_repr := Session.repr;
  py_obj_iter := fun o =>
    Raise (Exn "TypeError" ("'" +:+ obj_type_name o +:+ "' object is not iterable"));
  py_eval := eval;
  py_exec := Session.exec;
  py_call := Session.call;
  py_set_local := Session.set_local
|}.

Definition start (input : string) : state (py := python) :=
  @State python input "" "" redirect_stream [] ∅ 0.

End Session2.

(** * Properties *)

(** ** The encoder *)

Lemma str_int_nonempty (z : Z) : str_int z <> "".
Proof.
  unfold str_int, NilZero.string_of_int.
  destruct (Z.to_int z) as [d | d]; [| discriminate].
  unfold NilZero.string_of_uint.
  destruct d; discriminate.
Qed.

Lemma eqb_empty_false (s : string) : String.eqb s "" = false -> s <> "".
Proof. intros H ->. discriminate. Qed.

Lemma pmapM_all_ok {A B : Type} (f : A -> pyres B) (l : list A) :
  Forall (fun x => exists y, f x = Ok y) l -> exists ys, pmapM f l = Ok ys.
Proof.
  induction 1 as [| x rest [y Hy] _ [ys Hys]]; cbn.
  - eexists; reflexivity.
  - rewrite Hy; cbn. fold (pmapM f rest). rewrite Hys; cbn. eexists; reflexivity.
Qed.

Lemma pmapM_Forall2 {A B : Type} (f : A -> pyres B) (l : list A) (ys : list B) :
  Forall2 (fun x y => f x = Ok y) l ys -> pmapM f l = Ok ys.
Proof.
  induction 1 as [| x y rest ys' Hxy _ IH]; cbn; [reflexivity |].
  rewrite Hxy; cbn. fold (pmapM f rest). rewrite IH. reflexivity.
Qed.

Lemma block_all_ok {A : Type} (P : A -> Prop) (stride i : nat) (leaves : list A) :
  Forall P leaves -> Forall P (block stride i leaves).
Proof. intros H. unfold block. apply Forall_take, Forall_drop, H. Qed.

(** With at least one axis and every element encoded, [nested] returns. *)
Lemma nested_all_ok (shape : list nat) :
  shape <> [] ->
  forall leaves, Forall (fun r => exists s, r = Ok s) leaves ->
  exists body, nested shape leaves = Ok body.
Proof.
  induction shape as [| n rest IH]; [congruence |].
  intros _ leaves Hleaves. cbn [nested].
  destruct rest as [| m rest'].
  - destruct (pmapM_all_ok (fun r => r) leaves Hleaves) as [parts ->].
    eexists; reflexivity.
  - assert (Hsub : exists parts,
               pmapM (fun i => nested (m :: rest')
                                 (block (prod_shape (m :: rest')) i leaves)) (seq 0 n)
               = Ok parts).
    { apply pmapM_all_ok, Forall_forall. intros i _.
      apply IH; [discriminate |]. apply block_all_ok, Hleaves. }
    destruct Hsub as [parts ->]. eexists; reflexivity.
Qed.

Lemma forallb_Forall_encodable (P : value -> Prop) (l : list value) :
  Forall (fun v => encodable v = true -> P v) l ->
  forallb encodable l = true -> Forall P l.
Proof.
  induction 1 as [| x rest Hx _ IH]; cbn; intros Hb; [constructor |].
  apply andb_prop in Hb as [Hb1 Hb2]. constructor; auto.
Qed.

(** C4, as amended: on every value in which no Symbol has an empty name and
    no array has rank 0 (at any depth), [lispify] raises nothing and
    returns a string that is not empty. *)
Theorem lispify_total_nonempty (obj : value) :
  encodable obj = true -> exists s, lispify obj = Ok s /\ s <> "".
Proof.
  induction obj as [ | b | z | f | re im | s | name | l IH | l IH | items IH
                   | shape data IH | e | o ] using value_nested_ind;
    intros Henc; cbn [lispify].
  - eexists; split; [reflexivity | discriminate].
  - destruct b; eexists; (split; [reflexivity | discriminate]).
  - eexists; split; [reflexivity | apply str_int_nonempty].
  - eexists; split; [reflexivity |].
    cbn in Henc. apply eqb_empty_false, negb_true_iff, Henc.
  - eexists; split; [reflexivity | discriminate].
  - eexists; split; [reflexivity | discriminate].
  - eexists; split; [reflexivity |].
    cbn in Henc. apply eqb_empty_false, negb_true_iff, Henc.
  - cbn [encodable] in Henc.
    destruct (pmapM_all_ok lispify l) as [parts ->].
    { eapply Forall_impl; [| apply (forallb_Forall_encodable _ l IH Henc)].
      cbn. intros v (s & Hs & _). eauto. }
    eexists; split; [reflexivity | discriminate].
  - cbn [encodable] in Henc.
    destruct (pmapM_all_ok lispify l) as [parts ->].
    { eapply Forall_impl; [| apply (forallb_Forall_encodable _ l IH Henc)].
      cbn. intros v (s & Hs & _). eauto. }
    eexists; split; [reflexivity | discriminate].
  - cbn [encodable] in Henc.
    match goal with |- context [pmapM ?f items] =>
      destruct (pmapM_all_ok f items) as [parts ->] end.
    { clear -IH Henc. induction IH as [| [k v] rest [Hk Hv] _ IHrest];
        [constructor |].
      cbn in Henc. apply andb_prop in Henc as [Hkv Hrest].
      apply andb_prop in Hkv as [Hk' Hv'].
      constructor; [| apply IHrest, Hrest].
      cbn in Hk, Hv |- *.
      destruct (Hk Hk') as (ks & -> & _), (Hv Hv') as (vs & -> & _).
      eexists; reflexivity. }
    eexists; split; [reflexivity | discriminate].
  - cbn [encodable] in Henc.
    destruct shape as [| n rest]; [discriminate |].
    destruct (nested_all_ok (n :: rest) ltac:(discriminate) (map lispify data))
      as [body ->].
    { apply Forall_map.
      eapply Forall_impl; [| apply (forallb_Forall_encodable _ data IH Henc)].
      cbn. intros v (s & Hs & _). eauto. }
    eexists; split; [reflexivity | discriminate].
  - eexists; split; [reflexivity | discriminate].
  - cbn in Henc. destruct (obj_is_number o); cbn in Henc.
    + eexists; split; [reflexivity |].
      apply eqb_empty_false, negb_true_iff, Henc.
    + eexists; split; [reflexivity | discriminate].
Qed.

(** A list, a 2x2 array of NumPy integers, a mapping and a Symbol. *)
Lemma lispify_total_nonempty_witness :
  exists s,
    lispify (VList [VInt 1; VSymbol ":k";
                    VNdarray [2; 2]%nat
                      [VObject (Object "int64" "1" true (Ok true) (Ok (Some 1)));
                       VObject (Object "int64" "2" true (Ok true) (Ok (Some 2)));
                       VObject (Object "int64" "3" true (Ok true) (Ok (Some 3)));
                       VObject (Object "int64" "4" true (Ok true) (Ok (Some 4)))];
                    VDict [(VStr "a", VFloat (Float "1.5" None))]]) = Ok s
    /\ s <> "".
Proof. apply lispify_total_nonempty. reflexivity. Defined.

(** C4 fails as stated: [numpy.array(5)] has rank 0 and [nested] raises
    [IndexError] on [obj.shape[0]]; [Symbol("")] is encoded as the empty
    string. *)
Lemma lispify_rank0_raises_empty_symbol_empty :
  lispify (VNdarray [] [VObject (Object "int64" "5" true (Ok true) (Ok (Some 5)))])
    = Raise (Exn "IndexError" "tuple index out of range")
  /\ lispify (VSymbol "") = Ok "".
Proof. split; reflexivity. Qed.

(** C5, as amended: a mapping is encoded as
    [#.(let ((table (make-hash-table :test 'equal))) F1 ... Fn table)],
    each [Fi] the form [(setf (gethash Ki table) Vi)] of the encodings of
    the i-th key and value. *)
Theorem lispify_dict_literal (items : list (value * value)) (forms : list string) :
  Forall2 encodes_item items forms ->
  lispify (VDict items)
  = Ok ("#.(let ((table (make-hash-table :test 'equal))) "
        +:+ join " " forms +:+ " table)").
Proof.
  intros H. cbn [lispify].
  match goal with |- context [pmapM ?f items] =>
    rewrite (pmapM_Forall2 f items forms) end; [reflexivity |].
  induction H as [| [key val] form rest forms' (k & v & Hk & Hv & ->) _ IH];
    constructor; [| exact IH].
  cbn in Hk, Hv. rewrite Hk, Hv. reflexivity.
Qed.

Lemma lispify_dict_literal_witness :
  lispify (VDict [(VInt 1, VInt 2); (VSymbol ":k", VNone)])
  = Ok ("#.(let ((table (make-hash-table :test 'equal))) "
        +:+ join " " ["(setf (gethash 1 table) 2)"; "(setf (gethash :k table) NIL)"]
        +:+ " table)").
Proof.
  apply lispify_dict_literal.
  repeat constructor; do 2 eexists; repeat split; reflexivity.
Defined.

(** C5 fails as stated: the constructor call in the literal is
    [(make-hash-table :test 'equal)]; no [(make-equal-hash-table)] occurs
    in the encoding of [{1: 2}]. *)
Lemma lispify_dict_not_make_equal_hash_table :
  lispify (VDict [(VInt 1, VInt 2)])
  = Ok "#.(let ((table (make-hash-table :test 'equal))) (setf (gethash 1 table) 2) table)"
  /\ lispify (VDict [(VInt 1, VInt 2)])
     <> Ok "#.(let ((table (make-equal-hash-table))) (setf (gethash 1 table) 2) table)"
  /\ contains "(make-equal-hash-table)"
       "#.(let ((table (make-hash-table :test 'equal))) (setf (gethash 1 table) 2) table)"
     = false.
Proof. split; [reflexivity | split; [discriminate | reflexivity]]. Qed.

(** C6 fails as stated: [fractions.Fraction(1, 2)] is neither an [int], a
    [float] nor a [complex], and it is encoded as [1/2]. *)
Lemma lispify_fraction_not_nil :
  lispify (VObject (Object "Fraction" "1/2" true (Ok true) (Ok None))) = Ok "1/2"
  /\ lispify (VObject (Object "Fraction" "1/2" true (Ok true) (Ok None))) <> Ok "NIL".
Proof. split; [reflexivity | discriminate]. Qed.

(** ** The worker *)

Lemma append_assoc (a b c : string) : (a +:+ b) +:+ c = a +:+ b +:+ c.
Proof.
  induction a as [| x a IH]; [reflexivity |].
  change (String x ((a +:+ b) +:+ c) = String x (a +:+ b +:+ c)).
  rewrite IH. reflexivity.
Qed.

(** ** Decimal lengths *)

Lemma append_cons (c : ascii) (s t : string) : String c s +:+ t = String c (s +:+ t).
Proof. reflexivity. Qed.

Lemma list_ascii_of_string_app (s t : string) :
  list_ascii_of_string (s +:+ t) = list_ascii_of_string s ++ list_ascii_of_string t.
Proof.
  induction s as [| c s IH]; [reflexivity |].
  rewrite append_cons. cbn [list_ascii_of_string app]. rewrite IH. reflexivity.
Qed.

Lemma str_take_app (s t : string) : str_take (String.length s) (s +:+ t) = s.
Proof.
  induction s as [| c s IH]; [destruct t; reflexivity |].
  rewrite append_cons. cbn [String.length str_take]. rewrite IH. reflexivity.
Qed.

Lemma str_drop_app (s t : string) : str_drop (String.length s) (s +:+ t) = t.
Proof.
  induction s as [| c s IH]; [destruct t; reflexivity |].
  rewrite append_cons. cbn [String.length str_drop]. exact IH.
Qed.

Lemma parse_digits_acc (d : Decimal.uint) :
  forall acc : positive,
    parse_digits (Z.pos acc) true (list_ascii_of_string (NilEmpty.string_of_uint d))
    = Some (Z.pos (Pos.of_uint_acc d acc)).
Proof.
  induction d as [| d IH | d IH | d IH | d IH | d IH | d IH | d IH | d IH | d IH | d IH];
    intros acc; [reflexivity | ..];
    cbn [NilEmpty.string_of_uint list_ascii_of_string parse_digits Pos.of_uint_acc];
    match goal with
    | |- context [digit_of ?c] =>
        let v := eval vm_compute in (digit_of c) in change (digit_of c) with v
    end;
    cbv iota beta; rewrite <- IH; f_equal; lia.
Qed.

Lemma parse_digits_zero (d : Decimal.uint) :
  forall after : bool,
    d <> Decimal.Nil \/ after = true ->
    parse_digits 0 after (list_ascii_of_string (NilEmpty.string_of_uint d))
    = Some (Z.of_N (Pos.of_uint d)).
Proof.
  induction d as [| d IH | d IH | d IH | d IH | d IH | d IH | d IH | d IH | d IH | d IH];
    intros after H;
    [ destruct H as [H | ->]; [congruence | reflexivity]
    | cbn [NilEmpty.string_of_uint list_ascii_of_string parse_digits Pos.of_uint];
      change (digit_of "0") with (Some 0); cbv iota beta;
      apply IH; right; reflexivity
    | cbn [NilEmpty.string_of_uint list_ascii_of_string parse_digits Pos.of_uint];
      match goal with
      | |- context [digit_of ?c] =>
          let v := eval vm_compute in (digit_of c) in change (digit_of c) with v
      end;
      cbv iota beta; apply parse_digits_acc .. ].
Qed.

Lemma digits_not_space (d : Decimal.uint) :
  Forall not_space (list_ascii_of_string (NilEmpty.string_of_uint d)).
Proof.
  induction d; cbn [NilEmpty.string_of_uint list_ascii_of_string];
    constructor; try reflexivity; assumption.
Qed.

Lemma lstrip_rev_not_space (l : list ascii) :
  Forall not_space l -> lstrip (rev l) = rev l.
Proof.
  intros H. destruct (rev l) as [| x t] eqn:E; [reflexivity |].
  assert (Hx : not_space x).
  { eapply (proj1 (Forall_forall _ _) H). apply in_rev. rewrite E. left; reflexivity. }
  cbn [lstrip]. unfold not_space in Hx. rewrite Hx. reflexivity.
Qed.

Lemma strip_line (x : ascii) (t : list ascii) :
  Forall not_space (x :: t) ->
  strip ((x :: t) ++ [Ascii.ascii_of_nat 10]) = x :: t.
Proof.
  intros H. unfold strip.
  assert (Hx : is_space x = false) by (inversion H; assumption).
  change ((x :: t) ++ [ascii_of_nat 10]) with (x :: (t ++ [ascii_of_nat 10])).
  cbn [lstrip]. rewrite Hx.
  change (x :: t ++ [ascii_of_nat 10]) with ((x :: t) ++ [ascii_of_nat 10]).
  rewrite rev_unit. cbn [lstrip].
  change (is_space (ascii_of_nat 10)) with true. cbv iota.
  rewrite (lstrip_rev_not_space _ H). apply rev_involutive.
Qed.

Lemma parse_int_of_nat (n : nat) :
  parse_int (str_int (Z.of_nat n) +:+ newline) = Some (Z.of_nat n).
Proof.
  unfold str_int.
  assert (Hd : exists d, Z.to_int (Z.of_nat n) = Decimal.Pos d /\ d <> Decimal.Nil
                         /\ Z.of_N (Pos.of_uint d) = Z.of_nat n).
  { pose proof (DecimalZ.of_to (Z.of_nat n)) as Hof.
    destruct (Z.of_nat n) as [| p | p] eqn:E; [| | lia].
    - exists (Decimal.D0 Decimal.Nil). repeat split; discriminate.
    - exists (Pos.to_uint p). split; [reflexivity |]. split; [| exact Hof].
      intros Hnil. cbn in Hof. unfold Z.of_uint in Hof. rewrite Hnil in Hof.
      discriminate Hof. }
  destruct Hd as (d & -> & Hnil & Hval).
  cbn [NilZero.string_of_int]. unfold parse_int, newline.
  rewrite list_ascii_of_string_app.
  change (list_ascii_of_string (String (ascii_of_nat 10) "")) with [ascii_of_nat 10].
  assert (Hs : NilZero.string_of_uint d = NilEmpty.string_of_uint d)
    by (destruct d; [congruence | reflexivity ..]).
  rewrite Hs.
  pose proof (digits_not_space d) as Hns.
  pose proof (parse_digits_zero d false (or_introl Hnil)) as Hparse.
  rewrite Hval in Hparse.
  destruct d; [congruence | ..];
    cbn [NilEmpty.string_of_uint list_ascii_of_string] in Hns, Hparse |- *;
    rewrite (strip_line _ _ Hns); exact Hparse.
Qed.

Lemma split_line_digits (d : Decimal.uint) (tail : string) :
  split_line (NilEmpty.string_of_uint d +:+ newline +:+ tail)
  = (NilEmpty.string_of_uint d +:+ newline, tail).
Proof.
  induction d; cbn [NilEmpty.string_of_uint]; [reflexivity | ..];
    rewrite !append_cons; cbn [split_line];
    match goal with
    | |- context [Ascii.eqb ?a ?b] =>
        let v := eval vm_compute in (Ascii.eqb a b) in change (Ascii.eqb a b) with v
    end;
    cbv iota; rewrite IHd; reflexivity.
Qed.

Lemma split_line_length (n : nat) (tail : string) :
  split_line (str_int (Z.of_nat n) +:+ newline +:+ tail)
  = (str_int (Z.of_nat n) +:+ newline, tail).
Proof.
  unfold str_int.
  destruct (Z.of_nat n) as [| p | p] eqn:E; [reflexivity | | lia].
  cbn [Z.to_int NilZero.string_of_int].
  destruct (Pos.to_uint p) eqn:Ed; [reflexivity | ..];
    rewrite <- Ed;
    (replace (NilZero.string_of_uint (Pos.to_uint p))
       with (NilEmpty.string_of_uint (Pos.to_uint p)) by (rewrite Ed; reflexivity));
    apply split_line_digits.
Qed.

Section Worker.

Context {py : Python}.

Implicit Types (st : state) (val err payload handle function : value) (e : exn)
  (loop : M value) (rest src : string) (args : list value)
  (kwargs : list (string * value)).

(** *** Unknown classes *)

(** C6, as amended: a value whose class is not a key of [lispifiers] is
    encoded as [str(obj)] when it is an instance of [numbers.Number], and
    as [NIL] otherwise. *)
Theorem lispify_unknown_class (obj : value) :
  in_lispifiers obj = false ->
  lispify obj = Ok (if is_number obj then py_str obj else "NIL").
Proof.
  destruct obj as [ | | | | | | | | | | | e | o]; try discriminate; intros _.
  - reflexivity.
  - cbn. destruct (obj_is_number o); reflexivity.
Qed.

(** *** Arguments *)

Lemma split_loop_flat (items : list argument) :
  Forall positional_ok items ->
  forall args kwargs,
    split_loop (flat_arguments items) args kwargs
    = Ok (args ++ positionals items, bindings_on kwargs items).
Proof.
  induction 1 as [| a items Ha _ IH]; intros args kwargs.
  - cbn. rewrite app_nil_r. reflexivity.
  - destruct a as [val | name val].
    + change (flat_arguments (Positional val :: items))
        with (val :: flat_arguments items).
      change (positionals (Positional val :: items)) with (val :: positionals items).
      cbn in Ha. destruct val; try discriminate Ha;
        cbn [split_loop]; rewrite IH, <- app_assoc; reflexivity.
    + change (flat_arguments (Keyword name val :: items))
        with (VSymbol (":" +:+ name) :: val :: flat_arguments items).
      cbn [split_loop]. rewrite IH. reflexivity.
Qed.

Lemma split_args_sequence (items : list argument) :
  Forall positional_ok items ->
  split_args (VTuple (flat_arguments items))
  = Ok (positionals items, bindings_on [] items)
  /\ split_args (VList (flat_arguments items))
     = Ok (positionals items, bindings_on [] items).
Proof.
  intros H. unfold split_args. cbn [truthy pbind py_iter].
  destruct (flat_arguments items) as [| x l] eqn:E.
  - destruct items as [| [val | name val] items]; try discriminate E.
    split; reflexivity.
  - rewrite <- E, (split_loop_flat items H). split; reflexivity.
Qed.

(** *** Responses *)

Lemma send_value_eq val s st :
  lispify val = Ok s -> sys_stdout st = write_stream ->
  send_value val st = Done tt (set_written (written st +:+ frame s) st).
Proof.
  intros Hs Hout. unfold send_value, bind, lift, print, write, ret.
  rewrite Hs. cbn. rewrite Hout. cbn. unfold frame.
  rewrite !append_assoc. reflexivity.
Qed.

Lemma return_error_eq err st :
  return_error err st = Done tt (respond "e" (lispify_str (py_str err)) st).
Proof.
  unfold return_error, try_finally, bind, assign_stdout, write.
  rewrite (send_value_eq _ (lispify_str (py_str err))); [| reflexivity | reflexivity].
  cbn. unfold respond. cbn. rewrite !append_assoc. reflexivity.
Qed.

Lemma return_value_eq val s st :
  is_exception val = false -> lispify val = Ok s ->
  return_value val st = Done tt (respond "r" s st).
Proof.
  intros Hexc Hs.
  assert (H : return_value val st
              = try_finally (assign_stdout write_stream ;; write "r" ;; send_value val)
                  (assign_stdout redirect_stream) st)
    by (destruct val; try reflexivity; discriminate Hexc).
  rewrite H. unfold try_finally, bind, assign_stdout, write.
  rewrite (send_value_eq _ s); [| exact Hs | reflexivity].
  cbn. unfold respond. cbn. rewrite !append_assoc. reflexivity.
Qed.

Lemma return_value_exception e st :
  return_value (VExc e) st = Done tt (respond "e" (lispify_str (exn_str e)) st).
Proof. apply (return_error_eq (VExc e)). Qed.

(** *** Commands *)

Lemma stdin_read_command (c : ascii) rest st :
  stdin st = String c rest ->
  stdin_read 1 st = Done (String c "") (set_stdin rest st).
Proof. intros H. unfold stdin_read. cbn. rewrite H. reflexivity. Qed.

Lemma dispatch_e loop st rest :
  stdin st = String "e" rest ->
  dispatch loop st
  = (src <- recv_string ;;
     result <- run_py loop (py_eval (VStr src)) ;;
     return_value result ;;
     ret None) (set_stdin rest st).
Proof.
  intros H. unfold dispatch. unfold bind at 1.
  rewrite (stdin_read_command _ _ _ H). reflexivity.
Qed.

Lemma dispatch_call loop st rest (c : ascii) :
  c = "f"%char \/ c = "a"%char ->
  stdin st = String c rest ->
  dispatch loop st
  = (payload <- recv_value loop ;;
     fn_allargs <- lift (unpack2 payload) ;;
     split <- lift (split_args (snd fn_allargs)) ;;
     function <- run_py loop (py_eval (fst fn_allargs)) ;;
     if Ascii.eqb c "f" then
       val <- run_py loop (py_call function (fst split) (snd split)) ;;
       return_value val ;;
       ret None
     else
       handle <- next_async_handle ;;
       return_value (VInt handle) ;;
       call_and_store loop handle function (fst split) (snd split) ;;
       ret None) (set_stdin rest st).
Proof.
  intros Hc H. unfold dispatch. unfold bind at 1.
  rewrite (stdin_read_command _ _ _ H). destruct Hc as [-> | ->]; reflexivity.
Qed.

Lemma dispatch_R loop st rest :
  stdin st = String "R" rest ->
  dispatch loop st
  = (handle <- recv_value loop ;;
     val <- pop_async handle ;;
     return_value val ;;
     ret None) (set_stdin rest st).
Proof.
  intros H. unfold dispatch. unfold bind at 1.
  rewrite (stdin_read_command _ _ _ H). reflexivity.
Qed.


Lemma dispatch_unknown loop st (c : ascii) rest :
  stdin st = String c rest -> known_command c = false ->
  dispatch loop st
  = Done None (respond "e" (lispify_str ("Unknown message type '" +:+ String c "" +:+ "'"))
                 (set_stdin rest st)).
Proof.
  intros H Hc. unfold dispatch. unfold bind at 1.
  rewrite (stdin_read_command _ _ _ H).
  unfold known_command in Hc. cbn [existsb] in Hc.
  repeat (apply orb_false_elim in Hc as [? Hc]).
  cbn [String.eqb]. 
  repeat match goal with
         | Hx : Ascii.eqb c _ = false |- _ => rewrite Hx; clear Hx
         end.
  cbn [orb]. unfold bind. rewrite return_error_eq. reflexivity.
Qed.

(** A turn that neither returns nor exits goes on with the next turn. *)
Lemma loop_next (n : nat) st st' :
  turn (message_dispatch_loop n) st = Done None st' ->
  message_dispatch_loop (S n) st = message_dispatch_loop n st'.
Proof. intros H. cbn [message_dispatch_loop]. unfold bind. rewrite H. reflexivity. Qed.

Lemma turn_done loop st r st' :
  dispatch loop st = Done r st' -> turn loop st = Done r st'.
Proof. intros H. unfold turn. rewrite H. reflexivity. Qed.

Lemma turn_raised loop st e st' :
  dispatch loop st = Raised e st' ->
  turn loop st = Done None (respond "e" (lispify_str (exn_str e)) st').
Proof.
  intros H. unfold turn. rewrite H. unfold bind.
  rewrite return_error_eq. reflexivity.
Qed.

(** *** Calls *)

(** C9: in a flat argument sequence made of positional values (none a
    Symbol) and of pairs of a Symbol [:name] and a value, each such Symbol
    binds the value after it to [name], and the positional values are
    passed in their order; the [f] branch calls the function with these
    positional and keyword arguments. *)
Theorem split_args_flat (items : list argument) :
  Forall positional_ok items ->
  split_args (VTuple (flat_arguments items))
  = Ok (positionals items, bindings_on [] items)
  /\ split_args (VList (flat_arguments items))
     = Ok (positionals items, bindings_on [] items)
  /\ (forall loop st rest payload st1 fn_name function st2,
         stdin st = String "f" rest ->
         recv_value loop (set_stdin rest st) = Done payload st1 ->
         unpack2 payload = Ok (fn_name, VTuple (flat_arguments items)) ->
         run_py loop (py_eval fn_name) st1 = Done function st2 ->
         dispatch loop st
         = (val <- run_py loop (py_call function (positionals items)
                                  (bindings_on [] items)) ;;
            return_value val ;;
            ret None) st2).
Proof.
  intros H. destruct (split_args_sequence items H) as [Htuple Hlist].
  split; [exact Htuple | split; [exact Hlist |]].
  intros loop st rest payload st1 fn_name function st2 Hst Hpayload Hunpack Hfn.
  rewrite (dispatch_call _ _ _ "f" (or_introl eq_refl) Hst). unfold bind at 1 2 3 4.
  rewrite Hpayload, Hunpack. cbv beta iota delta [lift ret fst snd].
  rewrite Htuple. cbv beta iota delta [lift ret fst snd]. rewrite Hfn.
  reflexivity.
Qed.

(** *** Frames *)


Lemma recv_string_length st line after (z : Z) :
  split_line (stdin st) = (line, after) -> parse_int line = Some z ->
  recv_string st
  = if z <? 0 then Done after (set_stdin "" st)
    else Done (str_take (Z.to_nat z) after) (set_stdin (str_drop (Z.to_nat z) after) st).
Proof.
  intros Hline Hint. unfold recv_string, bind, stdin_readline, py_int.
  rewrite Hline, Hint. cbn. unfold stdin_read. cbn. destruct (z <? 0); reflexivity.
Qed.

(** What [send_value] writes for the string [s] is read back by
    [recv_string] as [s], whatever characters [s] has. *)
Lemma recv_string_frame st s rest :
  stdin st = frame s +:+ rest ->
  recv_string st = Done s (set_stdin rest st).
Proof.
  intros H.
  rewrite (recv_string_length st (str_int (len s) +:+ newline) (s +:+ rest) (len s)).
  - unfold len. destruct (Z.of_nat (String.length s) <? 0) eqn:E;
      [apply Z.ltb_lt in E; lia |].
    rewrite Nat2Z.id, str_take_app, str_drop_app. reflexivity.
  - rewrite H. unfold frame. rewrite !append_assoc. apply split_line_length.
  - apply parse_int_of_nat.
Qed.



(** *** Errors *)

(** C8: when the branch of a command raises an exception (so when the
    expression of an [e] raises, or the function of an [f]), and when the
    command byte is none of the known ones, the loop writes one [e]-marked
    response and goes on with the next turn, on the rest of the input. *)
Theorem error_containment :
  (forall (n : nat) st e st',
      dispatch (message_dispatch_loop n) st = Raised e st' ->
      message_dispatch_loop (S n) st
      = message_dispatch_loop n (respond "e" (lispify_str (exn_str e)) st'))
  /\ (forall (n : nat) st rest src st1 e st2,
         stdin st = String "e" rest ->
         recv_string (set_stdin rest st) = Done src st1 ->
         run_py (message_dispatch_loop n) (py_eval (VStr src)) st1 = Raised e st2 ->
         message_dispatch_loop (S n) st
         = message_dispatch_loop n (respond "e" (lispify_str (exn_str e)) st2))
  /\ (forall (n : nat) st rest payload st1 fn_name allargs args kwargs function st2 e st3,
         stdin st = String "f" rest ->
         recv_value (message_dispatch_loop n) (set_stdin rest st) = Done payload st1 ->
         unpack2 payload = Ok (fn_name, allargs) ->
         split_args allargs = Ok (args, kwargs) ->
         run_py (message_dispatch_loop n) (py_eval fn_name) st1 = Done function st2 ->
         run_py (message_dispatch_loop n) (py_call function args kwargs) st2
         = Raised e st3 ->
         message_dispatch_loop (S n) st
         = message_dispatch_loop n (respond "e" (lispify_str (exn_str e)) st3))
  /\ (forall (n : nat) st (c : ascii) rest,
         stdin st = String c rest -> known_command c = false ->
         message_dispatch_loop (S n) st
         = message_dispatch_loop n
             (respond "e" (lispify_str ("Unknown message type '" +:+ String c "" +:+ "'"))
                (set_stdin rest st))).
Proof.
  split; [| split; [| split]].
  - intros n st e st' H. apply loop_next, turn_raised, H.
  - intros n st rest src st1 e st2 H Hsrc Hrun.
    apply loop_next, turn_raised.
    rewrite (dispatch_e _ _ _ H). unfold bind. rewrite Hsrc, Hrun. reflexivity.
  - intros n st rest payload st1 fn_name allargs args kwargs function st2 e st3
           H Hpayload Hunpack Hsplit Hfn Hcall.
    apply loop_next, turn_raised.
    rewrite (dispatch_call _ _ _ "f" (or_introl eq_refl) H). unfold bind.
    rewrite Hpayload, Hunpack. cbv beta iota delta [lift ret fst snd].
    rewrite Hsplit. cbv beta iota delta [lift ret fst snd]. rewrite Hfn.
    cbn [Ascii.eqb Bool.eqb]. rewrite Hcall. reflexivity.
  - intros n st c rest H Hc. apply loop_next, turn_done, dispatch_unknown; assumption.
Qed.

(** C10: [return_value] on an exception object writes an [e]-marked
    response that carries the encoded [str] of the exception; so do the
    commands whose result can be one: [e] when the expression evaluates to
    it, [f] when the function returns it, [R] when it is what was stored.
    ([x], [a] and [s] reply with [None], an [int] and [True].) *)
Theorem exception_result_is_error_response :
  (forall e st,
      return_value (VExc e) st = Done tt (respond "e" (lispify_str (exn_str e)) st))
  /\ (forall loop st rest src st1 e st2,
         stdin st = String "e" rest ->
         recv_string (set_stdin rest st) = Done src st1 ->
         run_py loop (py_eval (VStr src)) st1 = Done (VExc e) st2 ->
         dispatch loop st = Done None (respond "e" (lispify_str (exn_str e)) st2))
  /\ (forall loop st rest payload st1 fn_name allargs args kwargs function st2 e st3,
         stdin st = String "f" rest ->
         recv_value loop (set_stdin rest st) = Done payload st1 ->
         unpack2 payload = Ok (fn_name, allargs) ->
         split_args allargs = Ok (args, kwargs) ->
         run_py loop (py_eval fn_name) st1 = Done function st2 ->
         run_py loop (py_call function args kwargs) st2 = Done (VExc e) st3 ->
         dispatch loop st = Done None (respond "e" (lispify_str (exn_str e)) st3))
  /\ (forall loop st rest handle st1 (h : Z) e,
         stdin st = String "R" rest ->
         recv_value loop (set_stdin rest st) = Done handle st1 ->
         int_key handle = Ok (Some h) ->
         async_results st1 !! h = Some (VExc e) ->
         dispatch loop st
         = Done None (respond "e" (lispify_str (exn_str e))
                        (set_async_results (delete h (async_results st1)) st1))).
Proof.
  split; [| split; [| split]].
  - intros e st. apply return_value_exception.
  - intros loop st rest src st1 e st2 H Hsrc Hrun.
    rewrite (dispatch_e _ _ _ H). unfold bind. rewrite Hsrc, Hrun.
    rewrite return_value_exception. reflexivity.
  - intros loop st rest payload st1 fn_name allargs args kwargs function st2 e st3
           H Hpayload Hunpack Hsplit Hfn Hcall.
    rewrite (dispatch_call _ _ _ "f" (or_introl eq_refl) H). unfold bind.
    rewrite Hpayload, Hunpack. cbn. rewrite Hsplit. cbn. rewrite Hfn, Hcall.
    rewrite return_value_exception. reflexivity.
  - intros loop st rest handle st1 h e H Hhandle Hkey Hstored.
    rewrite (dispatch_R _ _ _ H). unfold bind, pop_async, bind.
    rewrite Hhandle, Hkey. cbn. rewrite Hstored.
    rewrite return_value_exception. reflexivity.
Qed.

(** *** Deferred calls *)

Lemma dispatch_deferred loop st rest payload st1 fn_name allargs args kwargs function st2 :
  stdin st = String "a" rest ->
  recv_value loop (set_stdin rest st) = Done payload st1 ->
  unpack2 payload = Ok (fn_name, allargs) ->
  split_args allargs = Ok (args, kwargs) ->
  run_py loop (py_eval fn_name) st1 = Done function st2 ->
  dispatch loop st
  = match run_py loop (py_call function args kwargs)
            (respond "r" (str_int (async_handle st2))
               (set_async_handle (async_handle st2 + 1) st2)) with
    | Done val st3 =>
        Done None (set_async_results (<[async_handle st2 := val]> (async_results st3)) st3)
    | Raised e st3 =>
        Done None (set_async_results (<[async_handle st2 := VExc e]> (async_results st3)) st3)
    | Exited code st3 => Exited code st3
    | OutOfFuel => OutOfFuel
    end.
Proof.
  intros H Hpayload Hunpack Hsplit Hfn.
  rewrite (dispatch_call _ _ _ "a" (or_intror eq_refl) H). unfold bind.
  rewrite Hpayload, Hunpack. cbv beta iota delta [lift ret fst snd].
  rewrite Hsplit. cbv beta iota delta [lift ret fst snd]. rewrite Hfn.
  cbn [Ascii.eqb Bool.eqb]. unfold next_async_handle.
  rewrite (return_value_eq (VInt (async_handle st2)) (str_int (async_handle st2)));
    [| reflexivity | reflexivity].
  unfold call_and_store, store_async.
  match goal with |- context [run_py loop ?c ?s] => destruct (run_py loop c s) end;
    reflexivity.
Qed.

(** C1, as amended: in the branch of [a] the handle response is written
    first; the function is called in the state that has it written, the
    branch ends only when the call has ended, and what the call returned
    (or the exception it raised) is then stored under the handle. *)
Theorem deferred_call_answers_first
    loop st rest payload st1 fn_name allargs args kwargs function st2 :
  stdin st = String "a" rest ->
  recv_value loop (set_stdin rest st) = Done payload st1 ->
  unpack2 payload = Ok (fn_name, allargs) ->
  split_args allargs = Ok (args, kwargs) ->
  run_py loop (py_eval fn_name) st1 = Done function st2 ->
  let h := async_handle st2 in
  let answered := respond "r" (str_int h) (set_async_handle (h + 1) st2) in
  written answered = written st2 +:+ "r" +:+ frame (str_int h)
  /\ dispatch loop st
     = match run_py loop (py_call function args kwargs) answered with
       | Done val st3 =>
           Done None (set_async_results (<[h := val]> (async_results st3)) st3)
       | Raised e st3 =>
           Done None (set_async_results (<[h := VExc e]> (async_results st3)) st3)
       | Exited code st3 => Exited code st3
       | OutOfFuel => OutOfFuel
       end.
Proof.
  intros H Hpayload Hunpack Hsplit Hfn h answered. split; [reflexivity |].
  apply (dispatch_deferred _ _ _ _ _ _ _ _ _ _ _ H Hpayload Hunpack Hsplit Hfn).
Qed.




(** *** Callbacks *)

Lemma callback_func_eq loop ident args kwargs st s :
  lispify (VTuple [ident; VTuple (args ++ keyword_pairs kwargs)]) = Ok s ->
  callback_func loop ident args kwargs st = loop (respond "c" s st).
Proof.
  intros Hs. unfold callback_func, bind at 1. unfold try_finally, bind, assign_stdout, write.
  rewrite (send_value_eq _ s); [| exact Hs | reflexivity].
  cbn. unfold respond. cbn. rewrite !append_assoc. reflexivity.
Qed.



(** *** Fuel *)

Lemma refines_refl {A : Type} (m : M A) : refines m m.
Proof. intros st. right; reflexivity. Qed.

Lemma refines_bind {A B : Type} (m1 m2 : M A) (k1 k2 : A -> M B) :
  refines m1 m2 -> (forall a, refines (k1 a) (k2 a)) ->
  refines (bind m1 k1) (bind m2 k2).
Proof.
  intros Hm Hk st. unfold bind.
  destruct (Hm st) as [E | E]; [left; rewrite E; reflexivity |].
  rewrite E. destruct (m1 st) as [a st' | e st' | code st' |];
    [apply Hk | right; reflexivity ..].
Qed.

Lemma refines_try_finally {A : Type} (body1 body2 : M A) (fin : M unit) :
  refines body1 body2 -> refines (try_finally body1 fin) (try_finally body2 fin).
Proof.
  intros H st. unfold try_finally.
  destruct (H st) as [E | E]; [left; rewrite E; reflexivity |].
  rewrite E. right; reflexivity.
Qed.

Lemma refines_callback_func loop1 loop2 ident args kwargs :
  refines loop1 loop2 ->
  refines (callback_func loop1 ident args kwargs) (callback_func loop2 ident args kwargs).
Proof.
  intros H. unfold callback_func.
  apply refines_bind; [apply refines_refl | intros _; exact H].
Qed.

Lemma refines_run loop1 loop2 {A : Type} (c : comp world A) :
  refines loop1 loop2 -> refines (run loop1 c) (run loop2 c).
Proof.
  intros H. induction c as [a w | e w | code w | ident args kwargs w k IH];
    try apply refines_refl.
  intros st. cbn [run].
  destruct (refines_callback_func _ _ ident args kwargs H (set_world w st)) as [E | E];
    [left; rewrite E; reflexivity |].
  rewrite E.
  destruct (callback_func loop1 ident args kwargs (set_world w st))
    as [v st' | e st' | code st' |]; [apply IH | apply IH | right; reflexivity ..].
Qed.

Lemma refines_run_py loop1 loop2 {A : Type} (code : world -> comp world A) :
  refines loop1 loop2 -> refines (run_py loop1 code) (run_py loop2 code).
Proof. intros H st. unfold run_py. apply refines_run, H. Qed.

Lemma refines_recv_value loop1 loop2 :
  refines loop1 loop2 -> refines (recv_value loop1) (recv_value loop2).
Proof.
  intros H. unfold recv_value.
  apply refines_bind; [apply refines_refl | intros src; apply refines_run_py, H].
Qed.

Lemma refines_call_and_store loop1 loop2 (h : Z) function args kwargs :
  refines loop1 loop2 ->
  refines (call_and_store loop1 h function args kwargs)
          (call_and_store loop2 h function args kwargs).
Proof.
  intros H st. unfold call_and_store.
  destruct (refines_run_py _ _ (py_call function args kwargs) H st) as [E | E];
    [left; rewrite E; reflexivity |].
  rewrite E. right; reflexivity.
Qed.

Lemma refines_dispatch loop1 loop2 :
  refines loop1 loop2 -> refines (dispatch loop1) (dispatch loop2).
Proof.
  intros H. unfold dispatch.
  apply refines_bind; [apply refines_refl | intros cmd_type].
  repeat match goal with
         | |- refines (if ?b then _ else _) (if ?b then _ else _) => destruct b
         | |- refines (bind _ _) (bind _ _) => apply refines_bind
         | |- forall _, _ => intro
         | |- refines (run_py _ _) (run_py _ _) => apply refines_run_py, H
         | |- refines (recv_value _) (recv_value _) => apply refines_recv_value, H
         | |- refines (call_and_store _ _ _ _ _) (call_and_store _ _ _ _ _) =>
             apply refines_call_and_store, H
         | |- refines ?m ?m => apply refines_refl
         end.
Qed.

Lemma refines_turn loop1 loop2 :
  refines loop1 loop2 -> refines (turn loop1) (turn loop2).
Proof.
  intros H st. unfold turn.
  destruct (refines_dispatch _ _ H st) as [E | E]; [left; rewrite E; reflexivity |].
  rewrite E. right; reflexivity.
Qed.

Lemma refines_more_fuel (n : nat) :
  refines (message_dispatch_loop n) (message_dispatch_loop (S n)).
Proof.
  induction n as [| n IH]; [intros st; left; reflexivity |].
  change (refines
            (returned <- turn (message_dispatch_loop n) ;;
             match returned with Some v => ret v | None => message_dispatch_loop n end)
            (returned <- turn (message_dispatch_loop (S n)) ;;
             match returned with Some v => ret v | None => message_dispatch_loop (S n) end)).
  apply refines_bind; [apply refines_turn, IH |].
  intros [v |]; [apply refines_refl | exact IH].
Qed.

(** What the loop does within some fuel, it does with any more fuel. *)
Lemma message_dispatch_loop_fuel (n m : nat) st (r : outcome value) :
  message_dispatch_loop n st = r -> r <> OutOfFuel -> (n <= m)%nat ->
  message_dispatch_loop m st = r.
Proof.
  intros Hr Hfuel Hle. induction Hle as [| m Hle IH]; [exact Hr |].
  destruct (refines_more_fuel m st) as [E | E]; congruence.
Qed.

End Worker.

(** * The theorems on the session *)

(** A [fractions.Fraction], and a function. *)
Lemma lispify_unknown_class_witness :
  lispify (VObject Session.half) = Ok "1/2"
  /\ lispify (VObject Session.ask) = Ok "NIL".
Proof.
  split.
  - exact (lispify_unknown_class (py := Session.python) (VObject Session.half) eq_refl).
  - exact (lispify_unknown_class (py := Session.python) (VObject Session.ask) eq_refl).
Defined.

(** Two positional values and three keywords, one of them twice. *)
Lemma split_args_flat_witness :
  split_args (py := Session.python)
    (VTuple (flat_arguments [Positional (VInt 1); Keyword "k" (VInt 2);
                             Positional (VStr "z"); Keyword "k" (VSymbol ":v");
                             Keyword "j" VNone]))
  = Ok ([VInt 1; VStr "z"], [("k", VSymbol ":v"); ("j", VNone)]).
Proof.
  apply (proj1 (split_args_flat (py := Session.python)
                  [Positional (VInt 1); Keyword "k" (VInt 2);
                   Positional (VStr "z"); Keyword "k" (VSymbol ":v");
                   Keyword "j" VNone]
                  ltac:(repeat constructor))).
Defined.

(** [e] with [ValueError('boom')], an expression whose value is an
    exception object. *)
Lemma exception_result_is_error_response_witness :
  dispatch (py := Session.python) (message_dispatch_loop 0)
    (Session.start ("e" +:+ frame "ValueError('boom')"))
  = Done None (respond "e" (lispify_str "boom") (Session.start "")).
Proof.
  eassert (H : _).
  { eapply (proj1 (proj2 (exception_result_is_error_response (py := Session.python)))
              (message_dispatch_loop 0)
              (Session.start ("e" +:+ frame "ValueError('boom')"))); reflexivity. }
  exact H.
Defined.

(** [1/0] raises; the error is answered, then [1] is evaluated and
    answered, and the [r] that follows ends the loop. *)
Lemma error_containment_witness :
  exists st,
    message_dispatch_loop (py := Session.python) 3
      (Session.start ("e" +:+ frame "1/0" +:+ "e" +:+ frame "1" +:+ "r" +:+ frame "2"))
    = Done (VInt 2) st
    /\ written st = "e" +:+ frame (lispify_str "division by zero") +:+ "r" +:+ frame "1".
Proof.
  eassert (H : _).
  { eapply (proj1 (proj2 (error_containment (py := Session.python))) 2%nat
              (Session.start ("e" +:+ frame "1/0" +:+ "e" +:+ frame "1"
                              +:+ "r" +:+ frame "2"))); reflexivity. }
  rewrite H. vm_compute. eexists. split; reflexivity.
Defined.



(** [a] with [ask] and no arguments; [ask] calls back, and the [r] that
    answers it carries [1]. *)
Lemma deferred_call_answers_first_witness :
  exists st,
    dispatch (py := Session.python) (message_dispatch_loop 1)
      (Session.start ("a" +:+ frame "('ask', ())" +:+ "r" +:+ frame "1"))
    = Done None st
    /\ written st = "r" +:+ frame "0" +:+ "c" +:+ frame "(7 ())"
    /\ async_results st !! 0 = Some (VInt 1).
Proof.
  eassert (H : _).
  { eapply (deferred_call_answers_first (py := Session.python)
              (message_dispatch_loop 1)
              (Session.start ("a" +:+ frame "('ask', ())" +:+ "r" +:+ frame "1")));
      reflexivity. }
  destruct H as [_ H]. rewrite H. vm_compute. eexists. repeat split; reflexivity.
Defined.

(** C1 fails as stated: the call of [ask] has not ended when the handle
    response is written: the [c] message that [ask] sends while it runs
    comes after the handle [0] on the stream. *)
Lemma handle_written_before_call :
  exists st,
    message_dispatch_loop (py := Session.python) 3
      (Session.start ("a" +:+ frame "('ask', ())" +:+ "r" +:+ frame "1"
                      +:+ "r" +:+ frame "2"))
    = Done (VInt 2) st
    /\ written st = "r" +:+ frame "0" +:+ "c" +:+ frame "(7 ())".
Proof. vm_compute. eexists. split; reflexivity. Qed.



(** Two pending callbacks: [f] calls [ask], whose callback is pending when
    a second [f] calls [ask] again. The first [r] is the value of the
    second callback, whose [f] is answered with it; the second [r] is the
    value of the first callback, whose [f] is answered next. *)
Example nested_callbacks_unwind_last_in_first_out :
  exists st,
    message_dispatch_loop (py := Session.python) 5
      (Session.start ("f" +:+ frame "('ask', ())" +:+ "f" +:+ frame "('ask', ())"
                      +:+ "r" +:+ frame "1" +:+ "r" +:+ frame "2" +:+ "r" +:+ frame "0"))
    = Done (VInt 0) st
    /\ written st = "c" +:+ frame "(7 ())" +:+ "c" +:+ frame "(7 ())"
                    +:+ "r" +:+ frame "1" +:+ "r" +:+ frame "2".
Proof. vm_compute. eexists. split; reflexivity. Qed.

(** * Further properties *)

(** ** The encoder, continued *)

Lemma replace_char_app (old : ascii) (new a b : string) :
  replace_char old new (a +:+ b) = replace_char old new a +:+ replace_char old new b.
Proof.
  induction a as [| c a IH]; [reflexivity |].
  rewrite append_cons. cbn [replace_char]. rewrite IH.
  destruct (Ascii.eqb c old); [rewrite append_assoc |]; reflexivity.
Qed.

Lemma read_body_escaped (x after : string) :
  read_body (replace_char dquote (bs +:+ dq) (replace_char backslash (bs +:+ bs) x)
             +:+ String dquote after)
  = Some (x, after).
Proof.
  induction x as [| c x IH]; [reflexivity |].
  cbn [replace_char].
  destruct (Ascii.eqb c backslash) eqn:Ebs.
  - apply Ascii.eqb_eq in Ebs. subst c.
    rewrite replace_char_app.
    change (replace_char dquote (bs +:+ dq) (bs +:+ bs)) with (bs +:+ bs).
    rewrite append_assoc.
    change ((bs +:+ bs) +:+ ?t) with (String backslash (String backslash t)).
    cbn [read_body]. change (Ascii.eqb backslash dquote) with false.
    change (Ascii.eqb backslash backslash) with true. cbv iota.
    rewrite IH. reflexivity.
  - cbn [replace_char].
    destruct (Ascii.eqb c dquote) eqn:Edq.
    + apply Ascii.eqb_eq in Edq. subst c.
      rewrite append_assoc.
      change ((bs +:+ dq) +:+ ?t) with (String backslash (String dquote t)).
      cbn [read_body]. change (Ascii.eqb backslash dquote) with false.
      change (Ascii.eqb backslash backslash) with true. cbv iota.
      rewrite IH. reflexivity.
    + rewrite append_cons. cbn [read_body]. rewrite Edq, Ebs, IH. reflexivity.
Qed.

(** The encoding of a string delimits itself and loses nothing: read as a
    string literal it gives the string back and leaves the text that
    follows it; two strings with one encoding are the same string. *)
Theorem lispify_str_read_back :
  (forall x after : string, read_string (lispify_str x +:+ after) = Some (x, after))
  /\ (forall x y : string, lispify_str x = lispify_str y -> x = y).
Proof.
  assert (H : forall x after, read_string (lispify_str x +:+ after) = Some (x, after)).
  { intros x after. unfold lispify_str.
    change (dq +:+ ?t) with (String dquote t).
    rewrite append_cons. cbn [read_string].
    change (Ascii.eqb dquote dquote) with true. cbv iota.
    rewrite append_assoc. apply read_body_escaped. }
  split; [exact H |].
  intros x y Hxy. pose proof (H x "") as Hx. rewrite Hxy, (H y "") in Hx.
  congruence.
Qed.

(** A list is encoded as [#] followed by the encoding of the tuple of the
    same elements, and raises what that encoding raises. *)
Theorem lispify_list_sharp_tuple (elts : list value) :
  lispify (VList elts) = pbind (lispify (VTuple elts)) (fun s => Ok ("#" +:+ s)).
Proof.
  cbn [lispify]. destruct (pmapM lispify elts) as [parts | e]; reflexivity.
Qed.

Lemma pmapM_map {A B C : Type} (f : A -> B) (g : B -> pyres C) (l : list A) :
  pmapM g (map f l) = pmapM (fun x => g (f x)) l.
Proof.
  induction l as [| x l IH]; [reflexivity |].
  cbn [map]. cbn [pmapM]. fold (pmapM g (map f l)). fold (pmapM (fun x => g (f x)) l).
  rewrite IH. reflexivity.
Qed.

(** An array of rank 1 is encoded as [#1A] followed by the encoding of the
    tuple of its elements, and raises what that encoding raises. *)
Theorem lispify_vector_tuple (n : nat) (data : list value) :
  lispify (VNdarray [n] data)
  = pbind (lispify (VTuple data)) (fun s => Ok ("#1A" +:+ s)).
Proof.
  cbn [lispify nested]. rewrite (pmapM_map lispify (fun r => r)).
  destruct (pmapM lispify data) as [parts | e]; reflexivity.
Qed.





(** A string with a double quote and a backslash in it, before more text. *)
Lemma lispify_str_read_back_witness :
  read_string (lispify_str ("a" +:+ dq +:+ bs +:+ "b") +:+ " 1")
  = Some ("a" +:+ dq +:+ bs +:+ "b", " 1")
  /\ "ab" = "ab".
Proof.
  split.
  - exact (proj1 lispify_str_read_back ("a" +:+ dq +:+ bs +:+ "b") " 1").
  - exact (proj2 lispify_str_read_back "ab" "ab" eq_refl).
Defined.

(** ** The worker, continued *)

Lemma append_nil_r (s : string) : s +:+ "" = s.
Proof.
  induction s as [| c s IH]; [reflexivity |].
  rewrite append_cons, IH. reflexivity.
Qed.

Lemma str_take_drop (k : nat) (s : string) : str_take k s +:+ str_drop k s = s.
Proof.
  revert s. induction k as [| k IH]; intros s; [reflexivity |].
  destruct s as [| c s]; [reflexivity |].
  cbn [str_take str_drop]. rewrite append_cons, IH. reflexivity.
Qed.

Lemma split_line_app (s : string) : fst (split_line s) +:+ snd (split_line s) = s.
Proof.
  induction s as [| c s IH]; [reflexivity |].
  cbn [split_line]. destruct (Ascii.eqb c (ascii_of_nat 10)); [reflexivity |].
  destruct (split_line s) as [line after]. cbn [fst snd] in *.
  rewrite append_cons, IH. reflexivity.
Qed.

Section Invariants.

Context {py : Python}.

Implicit Types (st : state) (val err payload handle function : value) (e : exn)
  (loop : M value) (rest src : string) (args : list value)
  (kwargs : list (string * value)).

(** *** States that follow one another *)

Lemma follows_refl st : follows st st.
Proof.
  repeat split; try (exists ""; rewrite ?append_nil_r; reflexivity); auto.
  apply Z.le_refl.
Qed.

Lemma follows_trans st1 st2 st3 : follows st1 st2 -> follows st2 st3 -> follows st1 st3.
Proof.
  intros ([o1 Ho1] & [c1 Hc1] & Hh1 & Hr1 & Hs1 & Hi1)
         ([o2 Ho2] & [c2 Hc2] & Hh2 & Hr2 & Hs2 & Hi2).
  repeat split.
  - exists (o1 +:+ o2). rewrite Ho2, Ho1, append_assoc. reflexivity.
  - exists (c1 +:+ c2). rewrite Hc1, Hc2, append_assoc. reflexivity.
  - eapply Z.le_trans; eassumption.
  - congruence.
  - auto.
  - auto.
Qed.

Lemma follows_input st (consumed s : string) :
  stdin st = consumed +:+ s -> follows st (set_stdin s st).
Proof.
  intros H. repeat split; try (exists ""; rewrite ?append_nil_r; reflexivity); auto.
  - exists consumed. exact H.
  - apply Z.le_refl.
Qed.

Lemma follows_world st (w : world) : follows st (set_world w st).
Proof.
  repeat split; try (exists ""; rewrite ?append_nil_r; reflexivity); auto.
  apply Z.le_refl.
Qed.

Lemma follows_respond (marker payload : string) st : follows st (respond marker payload st).
Proof.
  repeat split; try (exists ""; rewrite ?append_nil_r; reflexivity); auto.
  - exists (marker +:+ frame payload). reflexivity.
  - apply Z.le_refl.
Qed.

Lemma follows_marker (marker : string) st :
  follows st (set_sys_stdout redirect_stream (set_written (written st +:+ marker) st)).
Proof.
  repeat split; try (exists ""; rewrite ?append_nil_r; reflexivity); auto.
  - exists marker. reflexivity.
  - apply Z.le_refl.
Qed.

Lemma follows_issue st : follows st (set_async_handle (async_handle st + 1) st).
Proof.
  repeat split; try (exists ""; rewrite ?append_nil_r; reflexivity); auto.
  - cbn. lia.
  - intros H h val Hh. cbn in *. specialize (H h val Hh). lia.
Qed.

Lemma follows_store st (h : Z) val :
  h < async_handle st ->
  follows st (set_async_results (<[h := val]> (async_results st)) st).
Proof.
  intros Hlt.
  repeat split; try (exists ""; rewrite ?append_nil_r; reflexivity); auto.
  - apply Z.le_refl.
  - intros H k v. cbn. rewrite lookup_insert.
    destruct (decide (h = k)) as [<- | Hne]; [intros _; exact Hlt | apply H].
Qed.

Lemma follows_delete st (h : Z) :
  follows st (set_async_results (delete h (async_results st)) st).
Proof.
  repeat split; try (exists ""; rewrite ?append_nil_r; reflexivity); auto.
  - apply Z.le_refl.
  - intros H k v. cbn. intros Hk. apply lookup_delete_Some in Hk as [_ Hk].
    exact (H k v Hk).
Qed.

(** *** Code that keeps the order *)

Lemma stable_ret {A : Type} (a : A) : stable (ret a).
Proof. intros st. apply follows_refl. Qed.

Lemma stable_lift {A : Type} (r : pyres A) : stable (lift r).
Proof. intros st. destruct r; apply follows_refl. Qed.

Lemma stable_bind {A B : Type} (m : M A) (k : A -> M B) :
  stable m -> (forall a, stable (k a)) -> stable (bind m k).
Proof.
  intros Hm Hk st. unfold bind. specialize (Hm st).
  destruct (m st) as [a st1 | e st1 | code st1 |]; cbn in *; try assumption.
  specialize (Hk a st1).
  destruct (k a st1) as [b st2 | e st2 | code st2 |]; cbn in *;
    try exact I; eapply follows_trans; eassumption.
Qed.

Lemma stable_stdin_read (n : Z) : stable (stdin_read n).
Proof.
  intros st. unfold stdin_read. destruct (n <? 0); cbn.
  - apply (follows_input st (stdin st)). rewrite append_nil_r. reflexivity.
  - apply (follows_input st (str_take (Z.to_nat n) (stdin st))).
    rewrite str_take_drop. reflexivity.
Qed.

Lemma stable_stdin_readline : stable stdin_readline.
Proof.
  intros st. unfold stdin_readline.
  pose proof (split_line_app (stdin st)) as H.
  destruct (split_line (stdin st)) as [line after]. cbn in *.
  apply (follows_input st line). rewrite H. reflexivity.
Qed.

Lemma stable_recv_string : stable recv_string.
Proof.
  unfold recv_string.
  apply stable_bind; [apply stable_stdin_readline | intros line].
  apply stable_bind; [apply stable_lift | intros n; apply stable_stdin_read].
Qed.

Lemma stable_return_error err : stable (return_error err).
Proof. intros st. rewrite return_error_eq. apply follows_respond. Qed.

Lemma return_value_raises val e st :
  is_exception val = false -> lispify val = Raise e ->
  return_value val st
  = Raised e (set_sys_stdout redirect_stream (set_written (written st +:+ "r") st)).
Proof.
  intros Hexc He.
  assert (H : return_value val st
              = try_finally (assign_stdout write_stream ;; write "r" ;; send_value val)
                  (assign_stdout redirect_stream) st)
    by (destruct val; try reflexivity; discriminate Hexc).
  rewrite H. unfold try_finally, bind, assign_stdout, write, send_value, bind, lift.
  rewrite He. reflexivity.
Qed.

Lemma stable_return_value val : stable (return_value val).
Proof.
  intros st. destruct (is_exception val) eqn:Hexc.
  - destruct val; try discriminate Hexc. rewrite return_value_exception.
    apply follows_respond.
  - destruct (lispify val) as [s | e] eqn:Hs.
    + rewrite (return_value_eq val s st Hexc Hs). apply follows_respond.
    + rewrite (return_value_raises val e st Hexc Hs). apply follows_marker.
Qed.

Lemma callback_func_raises loop ident args kwargs st e :
  lispify (VTuple [ident; VTuple (args ++ keyword_pairs kwargs)]) = Raise e ->
  callback_func loop ident args kwargs st
  = Raised e (set_sys_stdout redirect_stream (set_written (written st +:+ "c") st)).
Proof.
  intros He. unfold callback_func, bind at 1.
  unfold try_finally, bind, assign_stdout, write, send_value, bind, lift.
  rewrite He. reflexivity.
Qed.

Lemma stable_callback_func loop ident args kwargs :
  stable loop -> stable (callback_func loop ident args kwargs).
Proof.
  intros Hloop st.
  destruct (lispify (VTuple [ident; VTuple (args ++ keyword_pairs kwargs)]))
    as [s | e] eqn:Hs.
  - rewrite (callback_func_eq loop ident args kwargs st s Hs).
    specialize (Hloop (respond "c" s st)).
    destruct (loop (respond "c" s st)) as [v st1 | e st1 | code st1 |]; cbn in *;
      try exact I; (eapply follows_trans; [apply follows_respond | exact Hloop]).
  - rewrite (callback_func_raises loop ident args kwargs st e Hs). apply follows_marker.
Qed.

Lemma stable_run loop {A : Type} (c : comp world A) : stable loop -> stable (run loop c).
Proof.
  intros Hloop. induction c as [a w | e w | code w | ident args kwargs w k IH];
    intros st; cbn [run]; try apply follows_world.
  pose proof (stable_callback_func loop ident args kwargs Hloop (set_world w st)) as Hcb.
  destruct (callback_func loop ident args kwargs (set_world w st))
    as [v st1 | e st1 | code st1 |]; cbn in Hcb |- *; try exact I.
  - specialize (IH (Ok v) (the_world st1) st1).
    destruct (run loop (k (Ok v) (the_world st1)) st1) as [b st2 | e st2 | code st2 |];
      cbn in IH |- *; try exact I;
      (eapply follows_trans; [apply follows_world |]; eapply follows_trans; eassumption).
  - specialize (IH (Raise e) (the_world st1) st1).
    destruct (run loop (k (Raise e) (the_world st1)) st1) as [b st2 | e2 st2 | code st2 |];
      cbn in IH |- *; try exact I;
      (eapply follows_trans; [apply follows_world |]; eapply follows_trans; eassumption).
  - eapply follows_trans; [apply follows_world | exact Hcb].
Qed.

Lemma stable_run_py loop {A : Type} (code : world -> comp world A) :
  stable loop -> stable (run_py loop code).
Proof. intros H st. unfold run_py. apply stable_run, H. Qed.

Lemma stable_recv_value loop : stable loop -> stable (recv_value loop).
Proof.
  intros H. unfold recv_value.
  apply stable_bind; [apply stable_recv_string | intros src; apply stable_run_py, H].
Qed.

Lemma stable_pop_async handle : stable (pop_async handle).
Proof.
  unfold pop_async. apply stable_bind; [apply stable_lift | intros key st].
  destruct key as [h |]; [| apply follows_refl].
  destruct (async_results st !! h); [apply follows_delete | apply follows_refl].
Qed.

Lemma stable_set_variables (setlist : list value) : stable (set_variables setlist).
Proof.
  induction setlist as [| item setlist IH]; cbn [set_variables]; [apply stable_ret |].
  apply stable_bind; [apply stable_lift | intros nv].
  apply stable_bind; [| intros _; exact IH].
  intros st. destruct (py_set_local (fst nv) (snd nv) (the_world st));
    [apply follows_world | apply follows_refl].
Qed.

Lemma stable_deferred loop function args kwargs :
  stable loop ->
  stable (handle <- next_async_handle ;;
          return_value (VInt handle) ;;
          call_and_store loop handle function args kwargs ;;
          ret (@None value)).
Proof.
  intros Hloop st. unfold bind at 1 2. unfold next_async_handle.
  rewrite (return_value_eq (VInt (async_handle st)) (str_int (async_handle st)));
    [| reflexivity | reflexivity].
  set (st1 := respond "r" (str_int (async_handle st))
                (set_async_handle (async_handle st + 1) st)).
  assert (H01 : follows st st1)
    by (eapply follows_trans; [apply follows_issue | apply follows_respond]).
  unfold bind, call_and_store, store_async.
  pose proof (stable_run_py loop (py_call function args kwargs) Hloop st1) as Hrun.
  destruct (run_py loop (py_call function args kwargs) st1)
    as [val st3 | e st3 | code st3 |]; cbn in Hrun |- *; try exact I.
  - eapply follows_trans; [exact H01 |]. eapply follows_trans; [exact Hrun |].
    apply follows_store. destruct Hrun as (_ & _ & Hh & _). cbn in Hh. lia.
  - eapply follows_trans; [exact H01 |]. eapply follows_trans; [exact Hrun |].
    apply follows_store. destruct Hrun as (_ & _ & Hh & _). cbn in Hh. lia.
  - eapply follows_trans; eassumption.
Qed.

Lemma stable_dispatch loop : stable loop -> stable (dispatch loop).
Proof.
  intros H. unfold dispatch.
  apply stable_bind; [apply stable_stdin_read | intros cmd_type].
  repeat match goal with
         | |- stable (if ?b then _ else _) => destruct b
         | |- stable (handle <- next_async_handle ;; _) => apply stable_deferred, H
         | |- stable (bind _ _) => apply stable_bind
         | |- forall _, _ => intro
         | |- stable (run_py _ _) => apply stable_run_py, H
         | |- stable (recv_value _) => apply stable_recv_value, H
         | |- stable recv_string => apply stable_recv_string
         | |- stable (return_value _) => apply stable_return_value
         | |- stable (return_error _) => apply stable_return_error
         | |- stable (pop_async _) => apply stable_pop_async
         | |- stable (set_variables _) => apply stable_set_variables
         | |- stable (lift _) => apply stable_lift
         | |- stable (ret _) => apply stable_ret
         | |- stable (sys_exit _) => intros ?; apply follows_refl
         end.
Qed.

Lemma stable_turn loop : stable loop -> stable (turn loop).
Proof.
  intros H st. unfold turn.
  pose proof (stable_dispatch loop H st) as Hd.
  destruct (dispatch loop st) as [r st1 | e st1 | code st1 |]; try exact Hd.
  unfold bind. rewrite return_error_eq.
  eapply follows_trans; [exact Hd | apply follows_respond].
Qed.

Lemma stable_message_dispatch_loop (n : nat) : stable (message_dispatch_loop n).
Proof.
  induction n as [| n IH]; [intros st; exact I |].
  cbn [message_dispatch_loop].
  apply stable_bind; [apply stable_turn, IH |].
  intros [v |]; [apply stable_ret | exact IH].
Qed.

(** *** What a run of the loop keeps *)

(** Whenever the loop ends (it returns, or the process exits), what it has
    written was added at the end of the output, and the input left is the
    end of the input it found. *)
Theorem loop_appends_and_consumes (n : nat) st st' :
  final_state (message_dispatch_loop n st) = Some st' ->
  (exists out, written st' = written st +:+ out)
  /\ (exists consumed, stdin st = consumed +:+ stdin st').
Proof.
  intros H. pose proof (stable_message_dispatch_loop n st) as Hs.
  destruct (message_dispatch_loop n st) as [v s1 | e s1 | code s1 |];
    cbn in H, Hs; try discriminate; injection H as <-;
    destruct Hs as (Ho & Hc & _); split; assumption.
Qed.

(** When the loop ends, [sys.stdout] is on [redirect_stream] again if it was
    when the loop began, and the worker has sent nothing of its own to
    [redirect_stream]. *)
Theorem loop_restores_stdout (n : nat) st st' :
  final_state (message_dispatch_loop n st) = Some st' ->
  sys_stdout st = redirect_stream ->
  sys_stdout st' = redirect_stream /\ redirected st' = redirected st.
Proof.
  intros H Hout. pose proof (stable_message_dispatch_loop n st) as Hs.
  destruct (message_dispatch_loop n st) as [v s1 | e s1 | code s1 |];
    cbn in H, Hs; try discriminate; injection H as <-;
    destruct Hs as (_ & _ & _ & Hr & Hso & _); split; auto.
Qed.

(** [return_value] and [return_error] leave [sys.stdout] on
    [redirect_stream] on every way out, also when the encoder raises, and
    what they print goes to [write_stream] whatever [sys.stdout] was. *)
Theorem responses_restore_stdout :
  (forall val st st',
      final_state (return_value val st) = Some st' ->
      sys_stdout st' = redirect_stream /\ redirected st' = redirected st)
  /\ (forall err st st',
         final_state (return_error err st) = Some st' ->
         sys_stdout st' = redirect_stream /\ redirected st' = redirected st).
Proof.
  split.
  - intros val st st'. destruct (is_exception val) eqn:Hexc.
    + destruct val; try discriminate Hexc. rewrite return_value_exception.
      intros [= <-]. split; reflexivity.
    + destruct (lispify val) as [s | e] eqn:Hs.
      * rewrite (return_value_eq val s st Hexc Hs). intros [= <-]. split; reflexivity.
      * rewrite (return_value_raises val e st Hexc Hs). intros [= <-].
        split; reflexivity.
  - intros err st st'. rewrite return_error_eq. intros [= <-]. split; reflexivity.
Qed.

(** The counter of handles never goes back, and every handle with a stored
    result stays below it; so the handle that an [a] command issues has no
    stored result yet. *)
Theorem handles_are_fresh :
  (forall (n : nat) st st',
      final_state (message_dispatch_loop n st) = Some st' ->
      async_handle st <= async_handle st'
      /\ (handles_issued st -> handles_issued st'))
  /\ (forall (n : nat) st rest payload st1 fn_name function st2,
         handles_issued st ->
         stdin st = String "a" rest ->
         recv_value (message_dispatch_loop n) (set_stdin rest st) = Done payload st1 ->
         run_py (message_dispatch_loop n) (py_eval fn_name) st1 = Done function st2 ->
         async_results st2 !! async_handle st2 = None).
Proof.
  split.
  - intros n st st' H. pose proof (stable_message_dispatch_loop n st) as Hs.
    destruct (message_dispatch_loop n st) as [v s1 | e s1 | code s1 |];
      cbn in H, Hs; try discriminate; injection H as <-;
      destruct Hs as (_ & _ & Hh & _ & _ & Hi); split; assumption.
  - intros n st rest payload st1 fn_name function st2 Hi H Hpayload Hfn.
    pose proof (stable_recv_value _ (stable_message_dispatch_loop n) (set_stdin rest st))
      as H1.
    rewrite Hpayload in H1. cbn in H1.
    pose proof (stable_run_py _ (py_eval fn_name) (stable_message_dispatch_loop n) st1)
      as H2.
    rewrite Hfn in H2. cbn in H2.
    assert (Hi2 : handles_issued st2).
    { destruct H2 as (_ & _ & _ & _ & _ & H2). apply H2.
      destruct H1 as (_ & _ & _ & _ & _ & H1). apply H1. exact Hi. }
    destruct (async_results st2 !! async_handle st2) as [val |] eqn:E; [| reflexivity].
    specialize (Hi2 _ _ E). lia.
Qed.



(** *** The end of the input *)

Lemma dispatch_at_end loop st :
  stdin st = "" ->
  dispatch loop st = Done None (respond "e" (lispify_str "Unknown message type ''") st).
Proof.
  intros H. destruct st as [inp out red so w ar ah]. cbn in H. subst inp.
  unfold dispatch. unfold bind at 1.
  change (stdin_read 1 (State "" out red so w ar ah))
    with (Done "" (State "" out red so w ar ah)).
  cbn [String.eqb orb]. unfold bind. rewrite return_error_eq. reflexivity.
Qed.

(** At the end of the input [sys.stdin.read(1)] gives the empty string,
    which is answered as an unknown message type; the input is still at
    its end, so the loop does this again and never returns. *)
Theorem loop_spins_at_end_of_input :
  (forall (n : nat) st,
      stdin st = "" ->
      message_dispatch_loop (S n) st
      = message_dispatch_loop n
          (respond "e" (lispify_str "Unknown message type ''") st))
  /\ (forall (n : nat) st, stdin st = "" -> message_dispatch_loop n st = OutOfFuel).
Proof.
  assert (H : forall (n : nat) st,
             stdin st = "" ->
             message_dispatch_loop (S n) st
             = message_dispatch_loop n
                 (respond "e" (lispify_str "Unknown message type ''") st)).
  { intros n st Hst. apply loop_next, turn_done, dispatch_at_end, Hst. }
  split; [exact H |].
  induction n as [| n IH]; intros st Hst; [reflexivity |].
  rewrite (H n st Hst). apply IH. exact Hst.
Qed.

(** *** Quit *)



(** *** Arguments, continued *)

Lemma split_loop_positional (n : nat) :
  forall (it args : list value) kwargs args' kwargs',
    (List.length it <= n)%nat ->
    Forall (fun v => is_symbol v = false) args ->
    split_loop it args kwargs = Ok (args', kwargs') ->
    Forall (fun v => is_symbol v = false) args'.
Proof.
  induction n as [| n IH]; intros it args kwargs args' kwargs' Hlen Hargs.
  - destruct it; [| cbn in Hlen; lia]. cbn. intros [= <- _]. exact Hargs.
  - destruct it as [| arg it]; [cbn; intros [= <- _]; exact Hargs |].
    cbn in Hlen.
    assert (Hpos : is_symbol arg = false ->
                   split_loop (arg :: it) args kwargs = split_loop it (args ++ [arg]) kwargs)
      by (destruct arg; try reflexivity; discriminate).
    destruct (is_symbol arg) eqn:Hsym.
    + destruct arg; try discriminate Hsym. cbn [split_loop].
      destruct it as [| val it]; [discriminate |].
      apply IH; [cbn in Hlen |- *; lia | exact Hargs].
    + rewrite (Hpos eq_refl).
      apply IH; [lia |]. apply Forall_app. split; [exact Hargs |].
      constructor; [exact Hsym | constructor].
Qed.

(** Whatever the argument sequence, no Symbol is passed as a positional
    argument: a Symbol is a keyword, or the value of the keyword before
    it. *)
Theorem split_args_positional_no_symbol allargs args kwargs :
  split_args allargs = Ok (args, kwargs) ->
  Forall (fun v => is_symbol v = false) args.
Proof.
  unfold split_args. destruct (truthy allargs) as [[|] | e]; cbn [pbind];
    [| intros [= <- _]; constructor | discriminate].
  destruct (py_iter allargs) as [it | e]; cbn [pbind]; [| discriminate].
  apply (split_loop_positional (List.length it)); [lia | constructor].
Qed.

Lemma split_loop_missing_value (items : list argument) (name : string) :
  Forall positional_ok items ->
  forall args kwargs,
    split_loop (flat_arguments items ++ [VSymbol name]) args kwargs = Raise StopIteration.
Proof.
  induction 1 as [| a items Ha _ IH]; intros args kwargs; [reflexivity |].
  destruct a as [val | kw val].
  - change (flat_arguments (Positional val :: items) ++ [VSymbol name])
      with (val :: (flat_arguments items ++ [VSymbol name])).
    cbn in Ha. destruct val; try discriminate Ha; cbn [split_loop]; apply IH.
  - change (flat_arguments (Keyword kw val :: items) ++ [VSymbol name])
      with (VSymbol (":" +:+ kw) :: val :: (flat_arguments items ++ [VSymbol name])).
    cbn [split_loop]. apply IH.
Qed.

(** A keyword Symbol at the end of the argument sequence has no value to
    take: [next(it)] raises [StopIteration], and the [f] command is
    answered with an [e]-marked response whose message is the empty
    string. *)
Theorem keyword_without_value (items : list argument) (name : string) :
  Forall positional_ok items ->
  split_args (VTuple (flat_arguments items ++ [VSymbol name])) = Raise StopIteration
  /\ (forall (n : nat) st rest payload st1 fn_name,
         stdin st = String "f" rest ->
         recv_value (message_dispatch_loop n) (set_stdin rest st) = Done payload st1 ->
         unpack2 payload
         = Ok (fn_name, VTuple (flat_arguments items ++ [VSymbol name])) ->
         message_dispatch_loop (S n) st
         = message_dispatch_loop n (respond "e" (lispify_str "") st1)).
Proof.
  intros H.
  assert (Hsplit : split_args (VTuple (flat_arguments items ++ [VSymbol name]))
                   = Raise StopIteration).
  { unfold split_args. cbn [truthy pbind py_iter].
    destruct (flat_arguments items ++ [VSymbol name]) as [| x l] eqn:E.
    - destruct (flat_arguments items); discriminate E.
    - rewrite <- E. apply split_loop_missing_value, H. }
  split; [exact Hsplit |].
  intros n st rest payload st1 fn_name Hst Hpayload Hunpack.
  apply loop_next.
  rewrite (turn_raised _ _ StopIteration st1); [reflexivity |].
  rewrite (dispatch_call _ _ _ "f" (or_introl eq_refl) Hst). unfold bind.
  rewrite Hpayload, Hunpack. cbv beta iota delta [lift ret fst snd].
  rewrite Hsplit. reflexivity.
Qed.

Lemma dict_set_fresh (key : string) val (d : list (string * value)) :
  ~ In key (map fst d) -> dict_set key val d = d ++ [(key, val)].
Proof.
  induction d as [| [k v] d IH]; intros Hnot; [reflexivity |].
  cbn [dict_set]. destruct (String.eqb k key) eqn:E.
  - apply String.eqb_eq in E. subst k. exfalso. apply Hnot. left; reflexivity.
  - rewrite IH; [reflexivity |]. intros Hin. apply Hnot. right; exact Hin.
Qed.

Lemma split_loop_keyword_pairs (kwargs : list (string * value)) :
  forall args (bound : list (string * value)),
    NoDup (map fst (bound ++ kwargs)) ->
    split_loop (keyword_pairs kwargs) args bound = Ok (args, bound ++ kwargs).
Proof.
  induction kwargs as [| [key val] kwargs IH]; intros args bound Hnd.
  - cbn. rewrite app_nil_r. reflexivity.
  - change (keyword_pairs ((key, val) :: kwargs))
      with (VSymbol (":" +:+ key) :: val :: keyword_pairs kwargs).
    cbn [split_loop]. change (drop1 (":" +:+ key)) with key.
    assert (Hfresh : ~ In key (map fst bound)).
    { rewrite map_app in Hnd. apply NoDup_remove_2 in Hnd.
      intros Hin. apply Hnd. apply in_or_app. left; exact Hin. }
    rewrite (dict_set_fresh key val bound Hfresh).
    rewrite IH; rewrite <- app_assoc; [reflexivity | exact Hnd].
Qed.

Lemma split_loop_positional_prefix (pos : list value) :
  Forall (fun v => is_symbol v = false) pos ->
  forall (it args : list value) kwargs,
    split_loop (pos ++ it) args kwargs = split_loop it (args ++ pos) kwargs.
Proof.
  induction 1 as [| v pos Hv _ IH]; intros it args kwargs.
  - rewrite app_nil_r. reflexivity.
  - change ((v :: pos) ++ it) with (v :: (pos ++ it)).
    destruct v; try discriminate Hv; cbn [split_loop];
      rewrite IH, <- app_assoc; reflexivity.
Qed.

(** The argument sequence that [callback_func] builds from positional
    arguments (none a Symbol) and keyword arguments is split by the [f]
    branch into the same positional and keyword arguments. *)
Theorem callback_arguments_split_back args kwargs :
  Forall (fun v => is_symbol v = false) args ->
  NoDup (map fst kwargs) ->
  split_args (VTuple (args ++ keyword_pairs kwargs)) = Ok (args, kwargs).
Proof.
  intros Hargs Hnd. unfold split_args. cbn [truthy pbind py_iter].
  destruct (args ++ keyword_pairs kwargs) as [| x l] eqn:E.
  - apply app_eq_nil in E as [-> Hk].
    destruct kwargs as [| [key val] kwargs]; [reflexivity | discriminate Hk].
  - rewrite <- E, (split_loop_positional_prefix args Hargs).
    rewrite (split_loop_keyword_pairs kwargs ([] ++ args) []); [reflexivity | exact Hnd].
Qed.

(** *** Set *)

Lemma set_variables_pairs (pairs : list (value * value)) :
  forall st (w' : world),
    set_locals pairs (the_world st) = Ok w' ->
    set_variables (map pair_value pairs) st = Done tt (set_world w' st).
Proof.
  induction pairs as [| [name val] pairs IH]; intros st w' H.
  - cbn in H. injection H as <-. destruct st; reflexivity.
  - cbn [set_locals] in H. cbn [map set_variables]. unfold bind at 1 2.
    change (lift (unpack2 (pair_value (name, val))) st) with (Done (name, val) st).
    cbn [fst snd].
    destruct (py_set_local name val (the_world st)) as [w1 | e] eqn:E; [| discriminate H].
    cbn [pbind] in H. rewrite (IH (set_world w1 st) w' H). reflexivity.
Qed.

Lemma set_variables_stops (pairs : list (value * value)) (bad : value)
    (more : list value) e :
  unpack2 bad = Raise e ->
  forall st (w' : world),
    set_locals pairs (the_world st) = Ok w' ->
    set_variables (map pair_value pairs ++ bad :: more) st = Raised e (set_world w' st).
Proof.
  intros Hbad. induction pairs as [| [name val] pairs IH]; intros st w' H.
  - cbn in H. injection H as <-. cbn [map app set_variables]. unfold bind at 1.
    rewrite Hbad. destruct st; reflexivity.
  - cbn [set_locals] in H. cbn [map app set_variables]. unfold bind at 1 2.
    change (lift (unpack2 (pair_value (name, val))) st) with (Done (name, val) st).
    cbn [fst snd].
    destruct (py_set_local name val (the_world st)) as [w1 | e1] eqn:E; [| discriminate H].
    cbn [pbind] in H. rewrite (IH (set_world w1 st) w' H). reflexivity.
Qed.

(** [s] makes the assignments of its pairs in their order and acknowledges
    with [T]. It is not undone when it fails: when an element of the list
    is not a pair, the assignments before it stay, and the answer is the
    [e]-marked response of the failure. *)
Theorem set_assigns_in_order :
  (forall loop st rest setlist st1 (pairs : list (value * value)) (w' : world),
      stdin st = String "s" rest ->
      recv_value loop (set_stdin rest st) = Done setlist st1 ->
      py_iter setlist = Ok (map pair_value pairs) ->
      set_locals pairs (the_world st1) = Ok w' ->
      dispatch loop st = Done None (respond "r" "T" (set_world w' st1)))
  /\ (forall (n : nat) st rest setlist st1 (pairs : list (value * value)) bad more e
             (w' : world),
         stdin st = String "s" rest ->
         recv_value (message_dispatch_loop n) (set_stdin rest st) = Done setlist st1 ->
         py_iter setlist = Ok (map pair_value pairs ++ bad :: more) ->
         unpack2 bad = Raise e ->
         set_locals pairs (the_world st1) = Ok w' ->
         message_dispatch_loop (S n) st
         = message_dispatch_loop n
             (respond "e" (lispify_str (exn_str e)) (set_world w' st1))).
Proof.
  split.
  - intros loop st rest setlist st1 pairs w' Hst Hlist Hiter Hset.
    unfold dispatch. unfold bind at 1. rewrite (stdin_read_command _ _ _ Hst).
    cbn [String.eqb Ascii.eqb Bool.eqb orb]. unfold bind at 1 2 3.
    rewrite Hlist, Hiter. cbv beta iota delta [lift ret].
    rewrite (set_variables_pairs pairs st1 w' Hset).
    unfold bind. rewrite (return_value_eq (VBool true) "T"); reflexivity.
  - intros n st rest setlist st1 pairs bad more e w' Hst Hlist Hiter Hbad Hset.
    apply loop_next.
    rewrite (turn_raised _ _ e (set_world w' st1)); [reflexivity |].
    unfold dispatch. unfold bind at 1. rewrite (stdin_read_command _ _ _ Hst).
    cbn [String.eqb Ascii.eqb Bool.eqb orb]. unfold bind at 1 2 3.
    rewrite Hlist, Hiter. cbv beta iota delta [lift ret].
    rewrite (set_variables_stops pairs bad more e Hbad st1 w' Hset). reflexivity.
Qed.

(** *** A result that cannot be encoded *)

(** When the value of an [e] command is not an exception and the encoder
    raises on it, the marker [r] is on the stream already: the host is
    sent [r], and then the [e]-marked response of the failure. *)
Theorem unencodable_result_leaves_marker (n : nat) st rest src st1 val st2 e :
  stdin st = String "e" rest ->
  recv_string (set_stdin rest st) = Done src st1 ->
  run_py (message_dispatch_loop n) (py_eval (VStr src)) st1 = Done val st2 ->
  is_exception val = false ->
  lispify val = Raise e ->
  exists st3,
    message_dispatch_loop (S n) st = message_dispatch_loop n st3
    /\ written st3 = written st2 +:+ "r" +:+ "e" +:+ frame (lispify_str (exn_str e))
    /\ stdin st3 = stdin st2.
Proof.
  intros Hst Hsrc Hrun Hexc He.
  eexists. split.
  - apply loop_next.
    rewrite (turn_raised _ _ e
               (set_sys_stdout redirect_stream (set_written (written st2 +:+ "r") st2)));
      [reflexivity |].
    rewrite (dispatch_e _ _ _ Hst). unfold bind.
    rewrite Hsrc, Hrun, (return_value_raises val e st2 Hexc He). reflexivity.
  - split; [| reflexivity]. cbn. rewrite !append_assoc. reflexivity.
Qed.

(** *** Frames, continued *)

(** What [send_value] writes for a value is its length line and its
    encoding, and [recv_string] reads that back as the encoding, whatever
    characters it has, leaving what follows on the input. *)
Theorem send_value_read_back val (s : string) st :
  lispify val = Ok s -> sys_stdout st = write_stream ->
  exists st',
    send_value val st = Done tt st'
    /\ written st' = written st +:+ frame s
    /\ (forall st_in rest,
           stdin st_in = frame s +:+ rest ->
           recv_string st_in = Done s (set_stdin rest st_in)).
Proof.
  intros Hs Hout. eexists. split; [apply (send_value_eq val s st Hs Hout) |].
  split; [reflexivity |]. intros st_in rest. apply recv_string_frame.
Qed.

End Invariants.

(** * The further properties on the sessions *)

(** [e] with [1], then [r] with [2], before more input. *)
Lemma loop_appends_and_consumes_witness :
  exists st',
    final_state (message_dispatch_loop (py := Session.python) 2
                   (Session.start ("e" +:+ frame "1" +:+ "r" +:+ frame "2" +:+ "x")))
    = Some st'
    /\ (exists out, written st' = "" +:+ out)
    /\ (exists consumed,
           "e" +:+ frame "1" +:+ "r" +:+ frame "2" +:+ "x" = consumed +:+ stdin st').
Proof.
  eexists. split; [vm_compute; reflexivity |].
  apply (loop_appends_and_consumes (py := Session.python) 2
           (Session.start ("e" +:+ frame "1" +:+ "r" +:+ frame "2" +:+ "x"))).
  vm_compute. reflexivity.
Defined.

(** [f] with [ask], whose callback is answered by [r] with [1]; then [r]
    with [2]. *)
Lemma loop_restores_stdout_witness :
  exists st',
    final_state (message_dispatch_loop (py := Session.python) 3
                   (Session.start ("f" +:+ frame "('ask', ())" +:+ "r" +:+ frame "1"
                                   +:+ "r" +:+ frame "2")))
    = Some st'
    /\ sys_stdout st' = redirect_stream /\ redirected st' = "".
Proof.
  eexists. split; [vm_compute; reflexivity |].
  apply (loop_restores_stdout (py := Session.python) 3
           (Session.start ("f" +:+ frame "('ask', ())" +:+ "r" +:+ frame "1"
                           +:+ "r" +:+ frame "2"))).
  - vm_compute. reflexivity.
  - reflexivity.
Defined.

(** [return_value] on an array of rank 0, and [return_error] on a string,
    with [sys.stdout] on [write_stream] before. *)
Lemma responses_restore_stdout_witness :
  (exists st',
      final_state
        (return_value (py := Session.python)
           (VNdarray [] [VObject (Object "int64" "5" true (Ok true) (Ok (Some 5)))])
           (@State Session.python "" "" "" write_stream [] ∅ 0))
      = Some st'
      /\ sys_stdout st' = redirect_stream /\ redirected st' = "")
  /\ (exists st',
         final_state
           (return_error (py := Session.python) (VStr "no")
              (@State Session.python "" "" "" write_stream [] ∅ 0))
         = Some st'
         /\ sys_stdout st' = redirect_stream /\ redirected st' = "").
Proof.
  split.
  - eexists. split; [vm_compute; reflexivity |].
    apply (proj1 (responses_restore_stdout (py := Session.python))
             (VNdarray [] [VObject (Object "int64" "5" true (Ok true) (Ok (Some 5)))])
             (@State Session.python "" "" "" write_stream [] ∅ 0)).
    vm_compute. reflexivity.
  - eexists. split; [vm_compute; reflexivity |].
    apply (proj2 (responses_restore_stdout (py := Session.python)) (VStr "no")
             (@State Session.python "" "" "" write_stream [] ∅ 0)).
    vm_compute. reflexivity.
Defined.

Lemma handles_issued_start (input : string) : handles_issued (Session.start input).
Proof. intros h val H. cbn in H. rewrite lookup_empty in H. discriminate H. Qed.

(** Two [a] commands with [len((1, 2))], then [r]; and the first of them
    alone. *)
Lemma handles_are_fresh_witness :
  (exists st',
      final_state (message_dispatch_loop (py := Session.python) 3
                     (Session.start ("a" +:+ frame "('len', ((1, 2),))"
                                     +:+ "a" +:+ frame "('len', ((1, 2),))"
                                     +:+ "r" +:+ frame "0")))
      = Some st'
      /\ 0 <= async_handle st' /\ handles_issued st')
  /\ (exists st2,
         run_py (py := Session.python) (message_dispatch_loop 0) (py_eval (VStr "len"))
           (Session.start "")
         = Done (VObject (Object "builtin_function_or_method" "<built-in function len>"
                            false (Ok true) (Ok None))) st2
         /\ async_results st2 !! async_handle st2 = None).
Proof.
  split.
  - eexists. split; [vm_compute; reflexivity |].
    destruct (proj1 (handles_are_fresh (py := Session.python)) 3%nat
                (Session.start ("a" +:+ frame "('len', ((1, 2),))"
                                +:+ "a" +:+ frame "('len', ((1, 2),))"
                                +:+ "r" +:+ frame "0")) _
                ltac:(vm_compute; reflexivity)) as [Hle Hissued].
    split; [exact Hle | apply Hissued, handles_issued_start].
  - eexists. split; [reflexivity |].
    eapply (proj2 (handles_are_fresh (py := Session.python)) 0%nat
              (Session.start ("a" +:+ frame "('len', ((1, 2),))"))
              _ _ _ (VStr "len") _ _ (handles_issued_start _));
      reflexivity.
Defined.

(** The worker started on an empty input. *)
Lemma loop_spins_at_end_of_input_witness :
  message_dispatch_loop (py := Session.python) 1 (Session.start "")
  = message_dispatch_loop 0
      (respond "e" (lispify_str "Unknown message type ''") (Session.start ""))
  /\ message_dispatch_loop (py := Session.python) 5 (Session.start "") = OutOfFuel.
Proof.
  split.
  - exact (proj1 (loop_spins_at_end_of_input (py := Session.python)) 0%nat
             (Session.start "") eq_refl).
  - exact (proj2 (loop_spins_at_end_of_input (py := Session.python)) 5%nat
             (Session.start "") eq_refl).
Defined.


(** A positional value, a keyword whose value is a Symbol, a positional
    value. *)
Lemma split_args_positional_no_symbol_witness :
  Forall (fun v => is_symbol v = false) [VInt 1; VStr "z"].
Proof.
  exact (split_args_positional_no_symbol (py := Session.python)
           (VTuple [VInt 1; VSymbol ":k"; VSymbol ":v"; VStr "z"])
           [VInt 1; VStr "z"] [("k", VSymbol ":v")] eq_refl).
Defined.

(** [ask(:k)]: the keyword [:k] with nothing after it. *)
Lemma keyword_without_value_witness :
  split_args (py := Session2.python)
    (VTuple (flat_arguments [Positional (VInt 1)] ++ [VSymbol ":k"]))
  = Raise StopIteration
  /\ message_dispatch_loop (py := Session2.python) 1
       (Session2.start ("f" +:+ frame "('ask', (_py4cl_Symbol(':k'),))"))
     = message_dispatch_loop 0 (respond "e" (lispify_str "") (Session2.start "")).
Proof.
  split.
  - exact (proj1 (keyword_without_value (py := Session2.python)
                    [Positional (VInt 1)] ":k" ltac:(repeat constructor))).
  - eassert (H : _).
    { eapply (proj2 (keyword_without_value (py := Session2.python) [] ":k"
                       ltac:(constructor)) 0%nat
                (Session2.start ("f" +:+ frame "('ask', (_py4cl_Symbol(':k'),))")));
        reflexivity. }
    exact H.
Defined.

(** One positional and two keyword arguments. *)
Lemma callback_arguments_split_back_witness :
  split_args (py := Session.python)
    (VTuple ([VInt 1] ++ keyword_pairs [("k", VInt 2); ("j", VNone)]))
  = Ok ([VInt 1], [("k", VInt 2); ("j", VNone)]).
Proof.
  apply (callback_arguments_split_back (py := Session.python)).
  - repeat constructor.
  - repeat constructor; cbn; intuition discriminate.
Defined.

(** [s] with [(('x', 1),)], and with [(('x', 1), 2)]. *)
Lemma set_assigns_in_order_witness :
  dispatch (py := Session.python) (message_dispatch_loop 0)
    (Session.start ("s" +:+ frame "(('x', 1),)"))
  = Done None (respond "r" "T"
                 (@State Session.python "" "" "" redirect_stream [(VStr "x", VInt 1)] ∅ 0))
  /\ message_dispatch_loop (py := Session2.python) 1
       (Session2.start ("s" +:+ frame "(('x', 1), 2)"))
     = message_dispatch_loop 0
         (respond "e" (lispify_str "cannot unpack non-iterable int object")
            (@State Session2.python "" "" "" redirect_stream [(VStr "x", VInt 1)] ∅ 0)).
Proof.
  split.
  - eassert (H : _).
    { eapply (proj1 (set_assigns_in_order (py := Session.python))
                (message_dispatch_loop 0)
                (Session.start ("s" +:+ frame "(('x', 1),)")) _ _ _
                [(VStr "x", VInt 1)]); reflexivity. }
    exact H.
  - eassert (H : _).
    { eapply (proj2 (set_assigns_in_order (py := Session2.python)) 0%nat
                (Session2.start ("s" +:+ frame "(('x', 1), 2)")) _ _ _
                [(VStr "x", VInt 1)] (VInt 2) []); reflexivity. }
    exact H.
Defined.

(** [e] with [_py4cl_np.array(5)]. *)
Lemma unencodable_result_leaves_marker_witness :
  exists st3,
    message_dispatch_loop (py := Session2.python) 1
      (Session2.start ("e" +:+ frame "_py4cl_np.array(5)"))
    = message_dispatch_loop 0 st3
    /\ written st3 = "" +:+ "r" +:+ "e" +:+ frame (lispify_str "tuple index out of range")
    /\ stdin st3 = "".
Proof.
  eassert (H : _).
  { eapply (unencodable_result_leaves_marker (py := Session2.python) 0%nat
              (Session2.start ("e" +:+ frame "_py4cl_np.array(5)"))); reflexivity. }
  exact H.
Defined.

(** The value [12], sent and read back. *)
Lemma send_value_read_back_witness :
  exists st',
    send_value (py := Session.python) (VInt 12)
      (@State Session.python "" "" "" write_stream [] ∅ 0)
    = Done tt st'
    /\ written st' = "" +:+ frame "12"
    /\ (forall st_in rest,
           stdin st_in = frame "12" +:+ rest ->
           recv_string (py := Session.python) st_in = Done "12" (set_stdin rest st_in)).
Proof.
  exact (send_value_read_back (py := Session.python) (VInt 12) "12"
           (@State Session.python "" "" "" write_stream [] ∅ 0) eq_refl eq_refl).
Defined.
